(** * Badge sheet generator (generate_badges.py): model and verification

    A shallow embedding of [generate_badges.py].  Python dictionaries whose
    iteration order the program relies on are association lists in insertion
    order; CSV rows and the small per-entity dictionaries are finite maps;
    lengths are exact rationals (the program computes them in binary floating
    point, in PDF points); the reportlab canvas is the list of drawing calls
    it received; exceptions are an error monad. *)

From Stdlib Require Import ZArith QArith Qround String Ascii List Lia Lqa.
From stdpp Require Import base option list strings gmap.

Local Open Scope Z_scope.

(** ** Python strings

    A [str] is modelled as a sequence of code points below 256. *)

(** [str.isspace] on one code point below 256. *)
Definition is_space (c : ascii) : bool :=
  let n := nat_of_ascii c in
  ((9 <=? n)%nat && (n <=? 13)%nat) || ((28 <=? n)%nat && (n <=? 32)%nat)
  || (n =? 133)%nat || (n =? 160)%nat.

Fixpoint lstrip (s : string) : string :=
  match s with
  | EmptyString => EmptyString
  | String c s' => if is_space c then lstrip s' else s
  end.

Fixpoint rstrip (s : string) : string :=
  match s with
  | EmptyString => EmptyString
  | String c s' =>
      match rstrip s' with
      | EmptyString => if is_space c then EmptyString else String c EmptyString
      | r => String c r
      end
  end.

(** [s.strip()] *)
Definition strip (s : string) : string := rstrip (lstrip s).

(** [str.lower] on one code point below 256. *)
Definition lower_char (c : ascii) : ascii :=
  let n := nat_of_ascii c in
  if ((65 <=? n)%nat && (n <=? 90)%nat)
     || ((192 <=? n)%nat && (n <=? 222)%nat && negb (n =? 215)%nat)
  then ascii_of_nat (n + 32) else c.

(** [s.lower()] *)
Fixpoint lower (s : string) : string :=
  match s with
  | EmptyString => EmptyString
  | String c s' => String (lower_char c) (lower s')
  end.

(** [sub in s] *)
Fixpoint contains (sub s : string) : bool :=
  if String.prefix sub s then true
  else match s with
       | EmptyString => false
       | String _ s' => contains sub s'
       end.

(** [s[:n]] for [n >= 0] *)
Fixpoint str_take (n : nat) (s : string) : string :=
  match n, s with
  | S n', String c s' => String c (str_take n' s')
  | _, _ => EmptyString
  end.

(** Truthiness of a [str]. *)
Definition nonempty (s : string) : bool :=
  match s with EmptyString => false | _ => true end.

(** ** Exceptions *)

Inductive exn : Type :=
| KeyError (key : string)
| ZeroDivisionError
| AttributeError.

Inductive result (A : Type) : Type :=
| Ok (a : A)
| Raise (e : exn).
Arguments Ok {A} a.
Arguments Raise {A} e.

#[global] Instance result_ret : MRet result := fun _ a => Ok a.
#[global] Instance result_bind : MBind result := fun _ _ f m =>
  match m with
  | Ok a => f a
  | Raise e => Raise e
  end.

(** ** Python numbers *)

(** Float floor division [a // b]. *)
Definition py_floordiv (a b : Q) : result Q :=
  if Qeq_bool b 0 then Raise ZeroDivisionError
  else Ok (inject_Z (Qfloor (a / b))).

(** [int(x)] on a float: truncation towards zero. *)
Definition py_int (x : Q) : Z := Z.quot (Qnum x) (Zpos (Qden x)).

(** Integer [a % b] and [a // b]. *)
Definition py_imod (a b : Z) : result Z :=
  if b =? 0 then Raise ZeroDivisionError else Ok (a mod b).

Definition py_idiv (a b : Z) : result Z :=
  if b =? 0 then Raise ZeroDivisionError else Ok (a / b).

(** ** Insertion-ordered dictionaries *)

Section OrderedDict.
Context {V : Type}.

Fixpoint od_get (k : string) (d : list (string * V)) : option V :=
  match d with
  | [] => None
  | (k', v) :: d' => if decide (k = k') then Some v else od_get k d'
  end.

(** [d[k] = v]: an existing key keeps its place, a new key goes last. *)
Fixpoint od_set (k : string) (v : V) (d : list (string * V)) : list (string * V) :=
  match d with
  | [] => [(k, v)]
  | (k', v') :: d' =>
      if decide (k = k') then (k', v) :: d' else (k', v') :: od_set k v d'
  end.

Definition od_keys (d : list (string * V)) : list string := d.*1.

(** The keys of a dictionary are pairwise distinct. *)
Definition od_wf (d : list (string * V)) : Prop := NoDup (od_keys d).

End OrderedDict.

(** [row.get(key, default)] and [row[key]] on a string-valued dictionary. *)
Definition dict_get (d : gmap string string) (key dflt : string) : string :=
  default dflt (d !! key).

Definition dict_item (d : gmap string string) (key : string) : result string :=
  match d !! key with
  | Some v => Ok v
  | None => Raise (KeyError key)
  end.

(** ** Page and badge configuration (lines 114-125)

    The program fixes these values; the model takes them as a record so that
    the layout can also be studied at other sizes. *)

Record Config : Type := {
  page_width : Q;
  page_height : Q;
  margin : Q;
  qr_size : Q;
  text_space : Q;
  footer_height : Q
}.

(** [reportlab.lib.units.mm]: 72 / 25.4 points. *)
Definition mm : Q := 360 # 127.

(** [reportlab.lib.pagesizes.A4]: 210 mm x 297 mm. *)
Definition A4 : Q * Q := (210 * mm, 297 * mm)%Q.

Definition default_config : Config := {|
  page_width := fst A4;
  page_height := snd A4;
  margin := 10 * mm;
  qr_size := 40 * mm;
  text_space := 10 * mm;
  footer_height := 15 * mm
|}%Q.

Definition badge_width (cfg : Config) : Q := qr_size cfg.
Definition badge_height (cfg : Config) : Q := (qr_size cfg + text_space cfg)%Q.

(** ** Grid geometry (lines 127-140) *)

Record Geometry : Type := {
  usable_width : Q;
  usable_height : Q;
  cols : Z;
  rows : Z;
  badges_per_page : Z;
  h_spacing : Q;
  v_spacing : Q
}.

Definition computeGeometry (cfg : Config) : result Geometry :=
  let usable_width := (page_width cfg - 2 * margin cfg)%Q in
  let usable_height := (page_height cfg - 2 * margin cfg - footer_height cfg)%Q in
  c ← py_floordiv usable_width (badge_width cfg);
  let cols := py_int c in
  r ← py_floordiv usable_height (badge_height cfg);
  let rows := py_int r in
  let badges_per_page := cols * rows in
  let total_badge_width := (inject_Z cols * badge_width cfg)%Q in
  let total_badge_height := (inject_Z rows * badge_height cfg)%Q in
  let h_spacing :=
    if 1 <? cols
    then ((usable_width - total_badge_width) / inject_Z (cols + 1))%Q else 0%Q in
  let v_spacing :=
    if 1 <? rows
    then ((usable_height - total_badge_height) / inject_Z (rows + 1))%Q else 0%Q in
  mret {| usable_width := usable_width; usable_height := usable_height;
          cols := cols; rows := rows; badges_per_page := badges_per_page;
          h_spacing := h_spacing; v_spacing := v_spacing |}.

(** ** The canvas: the drawing calls made on [c], in order *)

Inductive op : Type :=
| SetFont (name : string) (size : Z)
| DrawCentredString (x y : Q) (text : string)
| DrawImage (payload : string) (x y width height : Q)
| ShowPage.

Record Participant : Type := {
  participant_id : string;
  name : string
}.

(** [draw_footer] (lines 145-149) *)
Definition draw_footer (cfg : Config) (footer_text : string) : list op :=
  let footer_y := margin cfg in
  [SetFont "Helvetica-Bold" 10;
   DrawCentredString (page_width cfg / 2) footer_y footer_text]%Q.

(** [draw_entity_footer] (lines 151-163) *)
Definition draw_entity_footer (cfg : Config) (entity_id : string)
    (entity_info : gmap string string) : list op :=
  let footer_y := margin cfg in
  let display_name := dict_get entity_info "display_name" "Unknown" in
  let footer_text := entity_id in
  [SetFont "Helvetica-Bold" 10;
   DrawCentredString (page_width cfg / 2) (footer_y + 5 * mm) footer_text;
   SetFont "Helvetica" 9;
   DrawCentredString (page_width cfg / 2) footer_y display_name]%Q.

(** Grid position of a badge (lines 167-175). *)
Record Anchor : Type := {
  a_col : Z;
  a_row : Z;
  a_x : Q;
  a_y_from_top : Q;
  a_y : Q
}.

Definition badge_anchor (cfg : Config) (g : Geometry) (badge_index : Z) : result Anchor :=
  col ← py_imod badge_index (cols g);
  row ← py_idiv badge_index (cols g);
  let x := (margin cfg + h_spacing g
            + inject_Z col * (badge_width cfg + h_spacing g))%Q in
  let y_from_top := (margin cfg + footer_height cfg + v_spacing g
                     + inject_Z row * (badge_height cfg + v_spacing g))%Q in
  let y := (page_height cfg - y_from_top - badge_height cfg)%Q in
  mret {| a_col := col; a_row := row; a_x := x;
          a_y_from_top := y_from_top; a_y := y |}.

(** The name label (lines 187-190). *)
Definition max_name_length : nat := 25.

Definition name_label (participant_name : string) : string :=
  if (max_name_length <? String.length participant_name)%nat
  then str_take (max_name_length - 3) participant_name +:+ "..."
  else participant_name.

(** [draw_badge] (lines 165-194); the QR image is identified by its payload,
    and [generate_qr_code] is taken to return one for every payload. *)
Definition draw_badge (cfg : Config) (g : Geometry) (participant : Participant)
    (badge_index : Z) : result (list op) :=
  a ← badge_anchor cfg g badge_index;
  let x := a_x a in
  let y := a_y a in
  let qr :=
    if nonempty (participant_id participant)
    then [DrawImage (participant_id participant) x (y + text_space cfg)
            (qr_size cfg) (qr_size cfg)]%Q
    else [] in
  let name_x := (x + qr_size cfg / 2)%Q in
  let name_y := (y + text_space cfg / 2)%Q in
  mret (qr ++ [SetFont "Helvetica" 7;
               DrawCentredString name_x name_y (name_label (name participant))]).

(** ** The compositor loops (lines 196-242) *)

(** The loop over one participant list (lines 204-212 and 231-239): the two
    copies differ only in the footer they redraw after a page break, given
    here as the drawing calls [footer]. Returns the calls made and the final
    [badge_index]. *)
Fixpoint place_badges (cfg : Config) (g : Geometry) (footer : list op)
    (participants : list Participant) (badge_index : Z) : result (list op * Z) :=
  match participants with
  | [] => mret ([], badge_index)
  | participant :: rest =>
      let '(brk, badge_index) :=
        if badges_per_page g <=? badge_index
        then (ShowPage :: footer, 0) else ([], badge_index) in
      b ← draw_badge cfg g participant badge_index;
      '(ops, final) ← place_badges cfg g footer rest (badge_index + 1);
      mret (brk ++ b ++ ops, final)
  end.

Definition title_footer (cfg : Config) : list op :=
  draw_footer cfg "Private Delegates".

(** Lines 203-212: [badge_index] runs on across the entities. *)
Fixpoint grouped_loop (cfg : Config) (g : Geometry)
    (items : list (string * list Participant)) (badge_index : Z)
    : result (list op * Z) :=
  match items with
  | [] => mret ([], badge_index)
  | (entity_id, participants) :: rest =>
      '(ops, badge_index) ← place_badges cfg g (title_footer cfg) participants badge_index;
      '(ops', final) ← grouped_loop cfg g rest badge_index;
      mret (ops ++ ops', final)
  end.

(** Lines 199-215. *)
Definition render_grouped (cfg : Config) (g : Geometry)
    (participants_by_entity : list (string * list Participant)) : result (list op) :=
  '(ops, _) ← grouped_loop cfg g participants_by_entity 0;
  mret (title_footer cfg ++ ops ++ [ShowPage]).

(** The default of [entities.get] on lines 221-224. *)
Definition unknown_entity : gmap string string :=
  <["entity_type" := "Unknown"]> (<["display_name" := "Unknown Delegation"]> ∅).

Definition entity_footer (cfg : Config) (entities : list (string * gmap string string))
    (entity_id : string) : list op :=
  let entity_info := default unknown_entity (od_get entity_id entities) in
  draw_entity_footer cfg entity_id entity_info.

(** Lines 219-242. *)
Fixpoint render_per_entity (cfg : Config) (g : Geometry)
    (entities : list (string * gmap string string))
    (items : list (string * list Participant)) : result (list op) :=
  match items with
  | [] => mret []
  | (entity_id, participants) :: rest =>
      let footer := entity_footer cfg entities entity_id in
      '(ops, _) ← place_badges cfg g footer participants 0;
      ops' ← render_per_entity cfg g entities rest;
      mret (footer ++ ops ++ [ShowPage] ++ ops')
  end.

(** ** Effects visible outside: console lines and saved files *)

Inductive message : Type :=
| LoadingData
| Found (private_delegates delegations : nat)
| GeneratingPDFs
| NoParticipants (output_file : string)
| Summary (pdf_title output_file : string) (entities participants : nat)
| AllGenerated.

Inductive event : Type :=
| Print (m : message)
| SavePDF (output_file : string) (canvas : list op).

(** A computation that prints and saves as it goes and may raise; the events
    made before an exception stay made. *)
Definition run (A : Type) : Type := (list event * result A)%type.

#[global] Instance run_ret : MRet run := fun _ a => ([], Ok a).
#[global] Instance run_bind : MBind run := fun _ _ f m =>
  match m with
  | (evs, Ok a) => let '(evs', r) := f a in (evs ++ evs', r)
  | (evs, Raise e) => (evs, Raise e)
  end.

Definition print (m : message) : run unit := ([Print m], Ok tt).
Definition save (output_file : string) (canvas : list op) : run unit :=
  ([SavePDF output_file canvas], Ok tt).
Definition lift {A : Type} (r : result A) : run A := ([], r).

Definition total_participants (participants_by_entity : list (string * list Participant))
    : nat :=
  sum_list (map (fun item => length item.2) participants_by_entity).

(** [generate_badges_pdf] (lines 86-250) at a given configuration. *)
Definition generate_badges_pdf_at (cfg : Config)
    (entities : list (string * gmap string string))
    (participants_by_entity : list (string * list Participant))
    (output_file pdf_title : string) (group_all_together : bool) : run unit :=
  match participants_by_entity with
  | [] => print (NoParticipants output_file)
  | _ =>
      g ← lift (computeGeometry cfg);
      c ← lift (if group_all_together
                then render_grouped cfg g participants_by_entity
                else render_per_entity cfg g entities participants_by_entity);
      save output_file c;;
      print (Summary pdf_title output_file (length participants_by_entity)
               (total_participants participants_by_entity))
  end.

(** [generate_badges_pdf] as the program has it: A4, 10 mm margins. *)
Definition generate_badges_pdf := generate_badges_pdf_at default_config.

(** ** The record loader (lines 19-59)

    First on rows whose cells are all strings: dictionaries from column names
    to strings, a column the file does not have being an absent key.  The
    [None] that [csv.DictReader] stores for a row shorter than the header is
    taken up by [load_entities_csv] and [load_participants_csv] further on. *)

Definition make_entity_info (entity_type display_name : string) : gmap string string :=
  <["entity_type" := entity_type]> (<["display_name" := display_name]> ∅).

Fixpoint load_entities_from (rows : list (gmap string string))
    (entities : list (string * gmap string string))
    : result (list (string * gmap string string)) :=
  match rows with
  | [] => mret entities
  | row :: rest =>
      e ← dict_item row "entity_id";
      let entity_id := strip e in
      let entity_type := strip (dict_get row "entity_type" "") in
      let team_name := strip (dict_get row "team_name" "") in
      let institution_name := strip (dict_get row "institution_name" "") in
      let display_name := if nonempty team_name then team_name else institution_name in
      load_entities_from rest
        (od_set entity_id (make_entity_info entity_type display_name) entities)
  end.

Definition load_entities (rows : list (gmap string string)) :=
  load_entities_from rows [].

Fixpoint load_participants_from (rows : list (gmap string string))
    (participants_by_entity : list (string * list Participant))
    : result (list (string * list Participant)) :=
  match rows with
  | [] => mret participants_by_entity
  | row :: rest =>
      e ← dict_item row "entity_id";
      let entity_id := strip e in
      let participant :=
        {| participant_id := strip (dict_get row "participant_id" "");
           name := strip (dict_get row "name" "") |} in
      let so_far := default [] (od_get entity_id participants_by_entity) in
      load_participants_from rest
        (od_set entity_id (so_far ++ [participant]) participants_by_entity)
  end.

Definition load_participants (rows : list (gmap string string)) :=
  load_participants_from rows [].

(** ** Partition and dispatch ([main], lines 253-323) *)

Definition is_private_delegate (entity_info : gmap string string) : bool :=
  let entity_type := lower (dict_get entity_info "entity_type" "") in
  contains "private delegate" entity_type.

(** Lines 273-281. *)
Fixpoint classify_entities (items : list (string * gmap string string))
    (private_delegate_entities delegation_entities : list (string * gmap string string))
    : list (string * gmap string string) * list (string * gmap string string) :=
  match items with
  | [] => (private_delegate_entities, delegation_entities)
  | (entity_id, entity_info) :: rest =>
      if is_private_delegate entity_info
      then classify_entities rest
             (od_set entity_id entity_info private_delegate_entities) delegation_entities
      else classify_entities rest
             private_delegate_entities (od_set entity_id entity_info delegation_entities)
  end.

(** Lines 284-294. *)
Fixpoint split_participants (entities : list (string * gmap string string))
    (items : list (string * list Participant))
    (private_delegate_participants delegation_participants : list (string * list Participant))
    : list (string * list Participant) * list (string * list Participant) :=
  match items with
  | [] => (private_delegate_participants, delegation_participants)
  | (entity_id, participants) :: rest =>
      let entity_info := default ∅ (od_get entity_id entities) in
      if is_private_delegate entity_info
      then split_participants entities rest
             (od_set entity_id participants private_delegate_participants)
             delegation_participants
      else split_participants entities rest
             private_delegate_participants
             (od_set entity_id participants delegation_participants)
  end.

Definition private_delegates_pdf : string := "badges_private_delegates.pdf".
Definition delegations_pdf : string := "badges_delegations.pdf".

Definition main_at (cfg : Config)
    (entities_file participants_file : list (gmap string string)) : run unit :=
  print LoadingData;;
  entities ← lift (load_entities entities_file);
  all_participants ← lift (load_participants participants_file);
  let '(private_delegate_entities, delegation_entities) :=
    classify_entities entities [] [] in
  let '(private_delegate_participants, delegation_participants) :=
    split_participants entities all_participants [] [] in
  print (Found (length private_delegate_entities) (length delegation_entities));;
  print GeneratingPDFs;;
  generate_badges_pdf_at cfg entities private_delegate_participants
    private_delegates_pdf "Private Delegates PDF" true;;
  generate_badges_pdf_at cfg entities delegation_participants
    delegations_pdf "Delegations PDF" false;;
  print AllGenerated.

Definition main := main_at default_config.

(** ** Pages as a layout plan

    The canvas contents are described page by page: which participants'
    badges a page holds, in grid order. *)

Definition drawn (r : result (list op)) : list op :=
  match r with
  | Ok c => c
  | Raise _ => []
  end.

(** The drawing calls for the badges of one page. *)
Definition page_badges (cfg : Config) (g : Geometry) (page : list Participant) : list op :=
  concat (imap (fun i participant => drawn (draw_badge cfg g participant (Z.of_nat i))) page).

(** One page: its footer, its badges, the page break that closes it. *)
Definition page_ops (cfg : Config) (g : Geometry) (footer : list op)
    (page : list Participant) : list op :=
  footer ++ page_badges cfg g page ++ [ShowPage].

(** Pages formed from [participants] when the open page already holds [cur]:
    a page is closed when a badge arrives and the page holds at least
    [badges_per_page] badges. *)
Fixpoint fill (badges_per_page : Z) (participants cur : list Participant)
    : list (list Participant) :=
  match participants with
  | [] => [cur]
  | participant :: rest =>
      if badges_per_page <=? Z.of_nat (length cur)
      then cur :: fill badges_per_page rest [participant]
      else fill badges_per_page rest (cur ++ [participant])
  end.

(** All participants of a mapping, in iteration order. *)
Definition all_participants (participants_by_entity : list (string * list Participant))
    : list Participant :=
  concat participants_by_entity.*2.

(** The pages of the per-entity policy, each with the entity it belongs to. *)
Definition per_entity_plan (badges_per_page : Z)
    (participants_by_entity : list (string * list Participant))
    : list (string * list Participant) :=
  flat_map (fun item => map (pair item.1) (fill badges_per_page item.2 []))
    participants_by_entity.

(** Badges drawn on each finished page of a canvas: every badge sets the
    label font (line 185) exactly once, and no footer uses it. *)
Definition is_label_font (o : op) : bool :=
  match o with
  | SetFont font 7 => bool_decide (font = "Helvetica")
  | _ => false
  end.

Fixpoint badges_on_pages (c : list op) (on_this_page : nat) : list nat :=
  match c with
  | [] => []
  | ShowPage :: c' => on_this_page :: badges_on_pages c' 0
  | o :: c' =>
      badges_on_pages c' (if is_label_font o then S on_this_page else on_this_page)
  end.

(** A drawing call that is neither a page break nor the label font. *)
Definition plain (c : list op) : Prop :=
  Forall (fun o => is_label_font o = false ∧ o ≠ ShowPage) c.

(** ** Sample inputs *)

(** A badge 250 mm wide: no column fits the page. *)
Definition wide_badge_config : Config := {|
  page_width := fst A4;
  page_height := snd A4;
  margin := 10 * mm;
  qr_size := 250 * mm;
  text_space := 10 * mm;
  footer_height := 15 * mm
|}%Q.

(** A label strip 260 mm high: four columns, but no row fits the page. *)
Definition tall_badge_config : Config := {|
  page_width := fst A4;
  page_height := snd A4;
  margin := 10 * mm;
  qr_size := 40 * mm;
  text_space := 260 * mm;
  footer_height := 15 * mm
|}%Q.

Definition ada : Participant := {| participant_id := "P1"; name := "Ada" |}.
Definition bob : Participant := {| participant_id := "P2"; name := "Bob" |}.
Definition cyd : Participant := {| participant_id := ""; name := "Cyd" |}.

Definition sample_participants : list (string * list Participant) :=
  [("E1", [ada; bob]); ("E2", [cyd])].

(** The geometry of a configuration whose badge sides are not zero. *)
Definition drawn_geometry (cfg : Config) : Geometry :=
  match computeGeometry cfg with
  | Ok g => g
  | Raise _ =>
      {| usable_width := 0; usable_height := 0; cols := 0; rows := 0;
         badges_per_page := 0; h_spacing := 0; v_spacing := 0 |}
  end.




(** ** Trimmed strings *)

Fixpoint last_char (s : string) : option ascii :=
  match s with
  | EmptyString => None
  | String c EmptyString => Some c
  | String _ s' => last_char s'
  end.

(** Neither the first nor the last character is whitespace. *)
Definition trimmed (s : string) : Prop :=
  match s with
  | EmptyString => True
  | String c _ => is_space c = false
  end
  ∧ match last_char s with
    | None => True
    | Some c => is_space c = false
    end.

(** The entity a row of the entities file describes, and the participant a
    row of the participants file describes. *)
Definition entity_of_row (row : gmap string string) : gmap string string :=
  let team_name := strip (dict_get row "team_name" "") in
  make_entity_info (strip (dict_get row "entity_type" ""))
    (if nonempty team_name then team_name
     else strip (dict_get row "institution_name" "")).

Definition participant_of_row (row : gmap string string) : Participant :=
  {| participant_id := strip (dict_get row "participant_id" "");
     name := strip (dict_get row "name" "") |}.

(** The row carries the key [entity_id], and stripped it reads [eid]. *)
Definition row_key (row : gmap string string) (eid : string) : Prop :=
  ∃ e, row !! "entity_id" = Some e ∧ eid = strip e.


(** Sample files. *)
Definition sample_entities_file : list (gmap string string) :=
  [ {[ "entity_id" := " E1 "; "entity_type" := "Junior Delegation";
       "team_name" := "Alpha" ]};
    {[ "entity_id" := "E2"; "entity_type" := "PRIVATE Delegate (solo)";
       "institution_name" := " Beta School " ]};
    {[ "entity_id" := "E3" ]} ].

Definition sample_participants_file : list (gmap string string) :=
  [ {[ "entity_id" := "E1"; "participant_id" := "P1"; "name" := " Ada " ]};
    {[ "entity_id" := "E9"; "name" := "Cyd" ]};
    {[ "entity_id" := "E1"; "participant_id" := "P2"; "name" := "Bob" ]} ].

(** A participants file whose second row lacks the key column. *)
Definition sample_keyless_file : list (gmap string string) :=
  [ {[ "entity_id" := "E1" ]}; {[ "name" := "Dee" ]} ].

Definition drawn_entities (entities_file : list (gmap string string))
    : list (string * gmap string string) :=
  match load_entities entities_file with
  | Ok entities => entities
  | Raise _ => []
  end.

Definition drawn_participants (participants_file : list (gmap string string))
    : list (string * list Participant) :=
  match load_participants participants_file with
  | Ok participants => participants
  | Raise _ => []
  end.



(** The test of lines 288-291. *)
Definition routed_private (entities : list (string * gmap string string))
    (entity_id : string) : bool :=
  is_private_delegate (default ∅ (od_get entity_id entities)).

(** ** Reading the loaded dictionaries off the file *)

(** The stripped key of a row, when it has one. *)
Definition row_eid (row : gmap string string) : option string :=
  strip <$> row !! "entity_id".

Definition row_has_eid (eid : string) (row : gmap string string) : bool :=
  bool_decide (row_eid row = Some eid).

(** The keys of [l] in order of first appearance, leaving out those [seen]. *)
Fixpoint first_seen (seen l : list string) : list string :=
  match l with
  | [] => []
  | k :: l' =>
      if decide (k ∈ seen) then first_seen seen l'
      else k :: first_seen (seen ++ [k]) l'
  end.


(** An entities file naming one entity twice. *)
Definition sample_repeated_entities_file : list (gmap string string) :=
  [ {[ "entity_id" := "E1"; "entity_type" := "Delegation"; "team_name" := "Alpha" ]};
    {[ "entity_id" := "E2"; "team_name" := "   ";
       "institution_name" := "Beta School" ]};
    {[ "entity_id" := "E1 "; "entity_type" := "Private Delegate" ]} ].

(** ** What a canvas shows *)

(** The name labels on a canvas, in drawing order: the strings drawn while
    the label font of line 185 is set.  A page break resets the font. *)
Fixpoint labels_drawn (c : list op) (label_font : bool) : list string :=
  match c with
  | [] => []
  | SetFont font size :: c' => labels_drawn c' (is_label_font (SetFont font size))
  | DrawCentredString _ _ text :: c' =>
      if label_font then text :: labels_drawn c' label_font
      else labels_drawn c' label_font
  | DrawImage _ _ _ _ _ :: c' => labels_drawn c' label_font
  | ShowPage :: c' => labels_drawn c' false
  end.

(** The payloads of the QR images on a canvas, in drawing order. *)
Fixpoint qr_payloads (c : list op) : list string :=
  match c with
  | [] => []
  | DrawImage payload _ _ _ _ :: c' => payload :: qr_payloads c'
  | _ :: c' => qr_payloads c'
  end.

(** A footer draws no label and no image. *)
Definition quiet (footer : list op) : Prop :=
  (∀ rest b, labels_drawn (footer ++ rest) b = labels_drawn rest false)
  ∧ qr_payloads footer = [].

(** Pages needed for [n] badges at [badges_per_page] a page; a footer page
    is there even without badges. *)
Definition pages_needed (badges_per_page n : Z) : Z :=
  Z.max 1 ((n + badges_per_page - 1) / badges_per_page).

(** Pages of the per-entity policy: every entity starts on a page of its own. *)
Definition pages_per_entity (badges_per_page : Z)
    (participants_by_entity : list (string * list Participant)) : Z :=
  foldr (fun item pages =>
           pages_needed badges_per_page (Z.of_nat (length item.2)) + pages)
    0 participants_by_entity.

(** ** The record loader on rows as [csv.DictReader] yields them

    [DictReader] gives every row the keys of the header; where a row is
    shorter than the header it stores [None], here the cell [None].  A key is
    absent from a row only when the header lacks the column. *)

(** [row[key].strip()] *)
Definition cell_item (row : gmap string (option string)) (key : string)
    : result string :=
  match row !! key with
  | None => Raise (KeyError key)
  | Some None => Raise AttributeError
  | Some (Some v) => Ok (strip v)
  end.

(** [row.get(key, '').strip()] *)
Definition cell_get (row : gmap string (option string)) (key : string)
    : result string :=
  match row !! key with
  | None => Ok (strip "")
  | Some None => Raise AttributeError
  | Some (Some v) => Ok (strip v)
  end.

(** [load_entities] (lines 25-41) *)
Fixpoint load_entities_csv_from (rows : list (gmap string (option string)))
    (entities : list (string * gmap string string))
    : result (list (string * gmap string string)) :=
  match rows with
  | [] => mret entities
  | row :: rest =>
      entity_id ← cell_item row "entity_id";
      entity_type ← cell_get row "entity_type";
      team_name ← cell_get row "team_name";
      institution_name ← cell_get row "institution_name";
      let display_name := if nonempty team_name then team_name else institution_name in
      load_entities_csv_from rest
        (od_set entity_id (make_entity_info entity_type display_name) entities)
  end.

Definition load_entities_csv (rows : list (gmap string (option string))) :=
  load_entities_csv_from rows [].

(** [load_participants] (lines 49-59) *)
Fixpoint load_participants_csv_from (rows : list (gmap string (option string)))
    (participants_by_entity : list (string * list Participant))
    : result (list (string * list Participant)) :=
  match rows with
  | [] => mret participants_by_entity
  | row :: rest =>
      entity_id ← cell_item row "entity_id";
      participant_id ← cell_get row "participant_id";
      name ← cell_get row "name";
      let participant := {| participant_id := participant_id; name := name |} in
      let so_far := default [] (od_get entity_id participants_by_entity) in
      load_participants_csv_from rest
        (od_set entity_id (so_far ++ [participant]) participants_by_entity)
  end.

Definition load_participants_csv (rows : list (gmap string (option string))) :=
  load_participants_csv_from rows [].

(** The row of the line [E1] under the header
    [entity_id,entity_type,team_name,institution_name]. *)
Definition short_entity_row : gmap string (option string) :=
  {[ "entity_id" := Some "E1"; "entity_type" := None; "team_name" := None;
     "institution_name" := None ]}.

(** The row of the line [E1,P1] under the header [entity_id,participant_id,name]. *)
Definition short_participant_row : gmap string (option string) :=
  {[ "entity_id" := Some "E1"; "participant_id" := Some "P1"; "name" := None ]}.

(** The row of the line [Ada] under the header [name,entity_id]. *)
Definition short_keyless_row : gmap string (option string) :=
  {[ "name" := Some "Ada"; "entity_id" := None ]}.

(** * Verification *)

(** ** Strings *)

Lemma length_append (s t : string) :
  String.length (s +:+ t) = (String.length s + String.length t)%nat.
Proof. induction s as [|c s IH]; simpl; [reflexivity | now rewrite IH]. Qed.

Lemma str_take_length (n : nat) (s : string) :
  String.length (str_take n s) = Nat.min n (String.length s).
Proof.
  revert s; induction n as [|n IH]; intros [|c s]; simpl; try reflexivity.
  now rewrite IH.
Qed.

(** [str_take] is the standard library's [substring] from position 0. *)
Lemma str_take_substring (n : nat) (s : string) : str_take n s = substring 0 n s.
Proof.
  revert s; induction n as [|n IH]; intros [|c s]; simpl; try reflexivity.
  now rewrite IH.
Qed.

(** C5: a name longer than 25 characters is drawn as its first 22 characters
    followed by three dots, 25 characters in all; a name of at most 25
    characters is drawn unchanged. *)
Theorem name_label_truncation (participant_name : string) :
  ((25 < String.length participant_name)%nat →
     name_label participant_name = substring 0 22 participant_name +:+ "..."
     ∧ String.length (name_label participant_name) = 25%nat)
  ∧ ((String.length participant_name ≤ 25)%nat →
     name_label participant_name = participant_name).
Proof.
  unfold name_label, max_name_length. split; intros Hlen.
  - destruct (Nat.ltb_spec 25 (String.length participant_name)) as [_|Hle]; [|lia].
    change (25 - 3)%nat with 22%nat. split.
    + now rewrite str_take_substring.
    + rewrite length_append, str_take_length. simpl String.length. lia.
  - destruct (Nat.ltb_spec 25 (String.length participant_name)) as [Hlt|_]; [lia|].
    reflexivity.
Qed.

Lemma name_label_truncation_witness :
  (name_label "Maximiliana Konstantinopolous" = "Maximiliana Konstantin..."
   ∧ String.length (name_label "Maximiliana Konstantinopolous") = 25%nat)
  ∧ name_label "Ada Lovelace" = "Ada Lovelace".
Proof.
  split.
  - apply (name_label_truncation "Maximiliana Konstantinopolous"). simpl. lia.
  - apply (name_label_truncation "Ada Lovelace"). simpl. lia.
Defined.

(** ** Numbers *)

Lemma py_int_inject_Z (z : Z) : py_int (inject_Z z) = z.
Proof. unfold py_int; simpl. apply Z.quot_1_r. Qed.

Lemma py_floordiv_ok (a b : Q) :
  ¬ (b == 0)%Q → py_floordiv a b = Ok (inject_Z (Qfloor (a / b))).
Proof.
  intros Hb. unfold py_floordiv.
  destruct (Qeq_bool b 0) eqn:E; [|reflexivity].
  now apply Qeq_bool_eq in E.
Qed.

Lemma py_floordiv_zero (a b : Q) :
  (b == 0)%Q → py_floordiv a b = Raise ZeroDivisionError.
Proof.
  intros Hb. unfold py_floordiv. now rewrite (Qeq_eq_bool _ _ Hb).
Qed.

(** Flooring: the quotient never exceeds the dividend. *)
Lemma floor_fits (a b : Q) :
  (0 < b)%Q →
  (inject_Z (Qfloor (a / b)) * b <= a)%Q ∧ (a < inject_Z (Qfloor (a / b) + 1) * b)%Q.
Proof.
  intros Hb.
  assert (Hne : ¬ (b == 0)%Q) by (intros E; rewrite E in Hb; discriminate).
  split.
  - pose proof (Qmult_le_compat_r _ _ b (Qfloor_le (a / b)) (Qlt_le_weak _ _ Hb)) as H.
    rewrite (Qmult_comm (a / b)), Qmult_div_r in H by assumption. exact H.
  - pose proof (Qmult_lt_compat_r _ _ b Hb (Qlt_floor (a / b))) as H.
    rewrite (Qmult_comm (a / b)), Qmult_div_r in H by assumption. exact H.
Qed.

(** ** Grid geometry *)

Lemma computeGeometry_ok (cfg : Config) :
  ¬ (badge_width cfg == 0)%Q → ¬ (badge_height cfg == 0)%Q →
  let uw := (page_width cfg - 2 * margin cfg)%Q in
  let uh := (page_height cfg - 2 * margin cfg - footer_height cfg)%Q in
  let c := Qfloor (uw / badge_width cfg) in
  let r := Qfloor (uh / badge_height cfg) in
  computeGeometry cfg =
    Ok {| usable_width := uw; usable_height := uh; cols := c; rows := r;
          badges_per_page := c * r;
          h_spacing := if 1 <? c
                       then ((uw - inject_Z c * badge_width cfg) / inject_Z (c + 1))%Q
                       else 0%Q;
          v_spacing := if 1 <? r
                       then ((uh - inject_Z r * badge_height cfg) / inject_Z (r + 1))%Q
                       else 0%Q |}.
Proof.
  intros Hw Hh. unfold computeGeometry.
  rewrite (py_floordiv_ok _ _ Hw), (py_floordiv_ok _ _ Hh). cbn.
  now rewrite !py_int_inject_Z.
Qed.

Lemma computeGeometry_bpp (cfg : Config) (g : Geometry) :
  computeGeometry cfg = Ok g → badges_per_page g = cols g * rows g.
Proof.
  unfold computeGeometry.
  destruct (py_floordiv _ (badge_width cfg)); [|discriminate].
  destruct (py_floordiv _ (badge_height cfg)); [|discriminate].
  cbn. intros [= <-]. reflexivity.
Qed.

(** A badge without width leaves nothing to divide by. *)
Lemma computeGeometry_zero_width (cfg : Config) :
  (badge_width cfg == 0)%Q → computeGeometry cfg = Raise ZeroDivisionError.
Proof.
  intros Hw. unfold computeGeometry. now rewrite (py_floordiv_zero _ _ Hw).
Qed.

(** ** The compositor loops *)

Lemma badge_anchor_ok (cfg : Config) (g : Geometry) (i : Z) :
  cols g ≠ 0 → ∃ a, badge_anchor cfg g i = Ok a.
Proof.
  intros Hc. unfold badge_anchor, py_imod, py_idiv.
  destruct (Z.eqb_spec (cols g) 0) as [E|_]; [contradiction|].
  cbn. eauto.
Qed.

Lemma draw_badge_ok (cfg : Config) (g : Geometry) (p : Participant) (i : Z) :
  cols g ≠ 0 → draw_badge cfg g p i = Ok (drawn (draw_badge cfg g p i)).
Proof.
  intros Hc. unfold draw_badge.
  destruct (badge_anchor_ok cfg g i Hc) as [a ->]. reflexivity.
Qed.


Lemma page_badges_snoc (cfg : Config) (g : Geometry) (cur : list Participant)
    (p : Participant) :
  page_badges cfg g (cur ++ [p])
  = page_badges cfg g cur ++ drawn (draw_badge cfg g p (Z.of_nat (length cur))).
Proof.
  unfold page_badges. rewrite imap_app, concat_app. cbn.
  now rewrite Nat.add_0_r, app_nil_r.
Qed.

(** The loop over a list is the loop over its parts, one after the other. *)
Lemma place_badges_app (cfg : Config) (g : Geometry) (footer : list op)
    (ps1 ps2 : list Participant) (i : Z) :
  place_badges cfg g footer (ps1 ++ ps2) i
  = ('(o1, i1) ← place_badges cfg g footer ps1 i;
     '(o2, i2) ← place_badges cfg g footer ps2 i1;
     mret (o1 ++ o2, i2)).
Proof.
  revert i; induction ps1 as [|p ps1 IH]; intros i.
  - cbn. destruct (place_badges cfg g footer ps2 i) as [[o2 i2]|e]; reflexivity.
  - cbn [place_badges app].
    destruct (badges_per_page g <=? i);
      (destruct (draw_badge cfg g p _) as [b|e]; [|reflexivity]; cbn;
       rewrite IH;
       destruct (place_badges cfg g footer ps1 _) as [[o1 i1]|e]; [|reflexivity]; cbn;
       destruct (place_badges cfg g footer ps2 i1) as [[o2 i2]|e]; [|reflexivity]; cbn;
       now rewrite <- !app_assoc).
Qed.

(** In the grouped policy entity boundaries play no part. *)
Lemma grouped_loop_flat (cfg : Config) (g : Geometry)
    (items : list (string * list Participant)) (i : Z) :
  grouped_loop cfg g items i
  = place_badges cfg g (title_footer cfg) (all_participants items) i.
Proof.
  revert i; induction items as [|[eid ps] items IH]; intros i; [reflexivity|].
  unfold all_participants. cbn [grouped_loop fmap list_fmap snd concat].
  rewrite place_badges_app.
  destruct (place_badges cfg g (title_footer cfg) ps i) as [[o1 i1]|e]; [|reflexivity].
  cbn. now rewrite IH.
Qed.

(** The loop draws the pages of [fill]. *)
Lemma place_badges_fill (cfg : Config) (g : Geometry) (footer : list op)
    (ps cur : list Participant) :
  cols g ≠ 0 →
  ∃ ops final,
    place_badges cfg g footer ps (Z.of_nat (length cur)) = Ok (ops, final)
    ∧ footer ++ page_badges cfg g cur ++ ops ++ [ShowPage]
      = flat_map (page_ops cfg g footer) (fill (badges_per_page g) ps cur).
Proof.
  intros Hc. revert cur; induction ps as [|p ps IH]; intros cur.
  - exists [], (Z.of_nat (length cur)). split; [reflexivity|].
    cbn. unfold page_ops. now rewrite app_nil_r.
  - cbn [place_badges fill].
    destruct (badges_per_page g <=? Z.of_nat (length cur)).
    + destruct (IH [p]) as (ops & final & Hrun & Heq).
      rewrite (draw_badge_ok cfg g p 0 Hc). cbn.
      change (0 + 1) with (Z.of_nat (length [p])). rewrite Hrun. cbn.
      eexists _, _. split; [reflexivity|].
      rewrite <- Heq. unfold page_ops at 1, page_badges at 2. cbn.
      rewrite app_nil_r, <- !app_assoc. reflexivity.
    + destruct (IH (cur ++ [p])) as (ops & final & Hrun & Heq).
      rewrite (draw_badge_ok cfg g p _ Hc). cbn.
      replace (Z.of_nat (length cur) + 1) with (Z.of_nat (length (cur ++ [p])))
        by (rewrite length_app; cbn; lia).
      rewrite Hrun. cbn.
      eexists _, _. split; [reflexivity|].
      rewrite <- Heq, page_badges_snoc, <- !app_assoc. reflexivity.
Qed.

Lemma flat_map_over_map {A B C : Type} (f : B → list C) (h : A → B) (l : list A) :
  flat_map f (map h l) = flat_map (fun x => f (h x)) l.
Proof. induction l as [|x l IH]; cbn; [reflexivity | now rewrite IH]. Qed.

Lemma render_grouped_plan (cfg : Config) (g : Geometry)
    (pbe : list (string * list Participant)) :
  cols g ≠ 0 →
  render_grouped cfg g pbe
  = Ok (flat_map (page_ops cfg g (title_footer cfg))
          (fill (badges_per_page g) (all_participants pbe) [])).
Proof.
  intros Hc. unfold render_grouped. rewrite grouped_loop_flat.
  destruct (place_badges_fill cfg g (title_footer cfg) (all_participants pbe) [] Hc)
    as (ops & final & Hrun & Heq).
  change (Z.of_nat (length (@nil Participant))) with 0 in Hrun.
  rewrite Hrun. cbn. now rewrite <- Heq.
Qed.

Lemma render_per_entity_plan (cfg : Config) (g : Geometry)
    (entities : list (string * gmap string string))
    (pbe : list (string * list Participant)) :
  cols g ≠ 0 →
  render_per_entity cfg g entities pbe
  = Ok (flat_map (fun page => page_ops cfg g (entity_footer cfg entities page.1) page.2)
          (per_entity_plan (badges_per_page g) pbe)).
Proof.
  intros Hc. induction pbe as [|[eid ps] pbe IH]; [reflexivity|].
  cbn [render_per_entity]. 
  destruct (place_badges_fill cfg g (entity_footer cfg entities eid) ps [] Hc)
    as (ops & final & Hrun & Heq).
  change (Z.of_nat (length (@nil Participant))) with 0 in Hrun.
  rewrite Hrun, IH. cbn [mbind mret result_bind result_ret].
  unfold per_entity_plan. cbn [flat_map fst snd]. rewrite flat_map_app.
  fold (per_entity_plan (badges_per_page g) pbe).
  rewrite flat_map_over_map.
  match goal with
  | |- context [flat_map ?f (fill ?b ps [])] =>
      change (flat_map f (fill b ps []))
        with (flat_map (page_ops cfg g (entity_footer cfg entities eid)) (fill b ps []))
  end.
  rewrite <- Heq. unfold page_badges at 1. cbn [imap concat app].
  unfold mret, result_ret. f_equal. rewrite <- !app_assoc. reflexivity.
Qed.

(** ** Pages formed by the loop *)

Lemma fill_concat (bpp : Z) (ps cur : list Participant) :
  concat (fill bpp ps cur) = cur ++ ps.
Proof.
  revert cur; induction ps as [|p ps IH]; intros cur; cbn [fill].
  - cbn. now rewrite !app_nil_r.
  - destruct (bpp <=? Z.of_nat (length cur)).
    + cbn [concat]. now rewrite IH.
    + now rewrite IH, <- app_assoc.
Qed.

Lemma fill_cons (bpp : Z) (ps cur : list Participant) :
  ∃ page pages, fill bpp ps cur = page :: pages.
Proof.
  revert cur; induction ps as [|p ps IH]; intros cur; cbn [fill]; [eauto|].
  destruct (bpp <=? Z.of_nat (length cur)); eauto.
Qed.

(** Every page but the last is full. *)
Lemma fill_full_pages (bpp : Z) (ps cur : list Participant) (i : nat)
    (page : list Participant) :
  0 < bpp → Z.of_nat (length cur) ≤ bpp →
  fill bpp ps cur !! i = Some page → (S i < length (fill bpp ps cur))%nat →
  Z.of_nat (length page) = bpp.
Proof.
  intros Hb. revert cur i; induction ps as [|p ps IH]; intros cur i Hcur Hi Hlt.
  - cbn in Hlt. lia.
  - cbn [fill] in Hi, Hlt.
    destruct (Z.leb_spec bpp (Z.of_nat (length cur))) as [Hfull|Hroom].
    + destruct i as [|i].
      * cbn in Hi. injection Hi as <-. lia.
      * cbn in Hi, Hlt. apply (IH [p] i); [cbn; lia | assumption | lia].
    + apply (IH (cur ++ [p]) i); [rewrite length_app; cbn; lia | assumption..].
Qed.

(** The last page holds what is left over. *)
Lemma fill_last_page (bpp : Z) (ps cur : list Participant) :
  0 < bpp → Z.of_nat (length cur) ≤ bpp →
  let total := Z.of_nat (length (cur ++ ps)) in
  ∃ lp, last (fill bpp ps cur) = Some lp
        ∧ Z.of_nat (length lp)
          = if (0 <? total) && (total mod bpp =? 0) then bpp else total mod bpp.
Proof.
  intros Hb. revert cur; induction ps as [|p ps IH]; intros cur Hcur total.
  - exists cur. split; [reflexivity|]. subst total. rewrite app_nil_r.
    destruct (Z.ltb_spec 0 (Z.of_nat (length cur))) as [Hpos|Hz]; cbn [andb].
    + destruct (Z.eq_dec (Z.of_nat (length cur)) bpp) as [->|Hne].
      * rewrite Z_mod_same_full. reflexivity.
      * rewrite Z.mod_small by lia.
        destruct (Z.eqb_spec (Z.of_nat (length cur)) 0); [lia | reflexivity].
    + rewrite Z.mod_small by lia. reflexivity.
  - cbn [fill].
    destruct (Z.leb_spec bpp (Z.of_nat (length cur))) as [Hfull|Hroom].
    + destruct (IH [p]) as (lp & Hlast & Hlen); [cbn; lia|].
      exists lp. split.
      * destruct (fill_cons bpp ps [p]) as (pg & pgs & E). rewrite E in Hlast |- *.
        now rewrite last_cons_cons.
      * rewrite Hlen. subst total. rewrite !length_app. cbn [length].
        replace (Z.of_nat (length cur + S (length ps)))
          with (Z.of_nat (1 + length ps) + 1 * bpp) by lia.
        rewrite Z_mod_plus_full.
        destruct (Z.ltb_spec 0 (Z.of_nat (1 + length ps))); [|lia].
        destruct (Z.ltb_spec 0 (Z.of_nat (1 + length ps) + 1 * bpp)); [|lia].
        reflexivity.
    + destruct (IH (cur ++ [p])) as (lp & Hlast & Hlen);
        [rewrite length_app; cbn; lia|].
      exists lp. split; [assumption|].
      rewrite Hlen. subst total. now rewrite <- app_assoc.
Qed.

(** With no room on any page, every badge opens a page of its own. *)
Lemma fill_degenerate (bpp : Z) (ps cur : list Participant) :
  bpp ≤ 0 → fill bpp ps cur = cur :: map (fun p => [p]) ps.
Proof.
  intros Hb. revert cur; induction ps as [|p ps IH]; intros cur; [reflexivity|].
  cbn [fill map].
  destruct (Z.leb_spec bpp (Z.of_nat (length cur))); [|lia].
  now rewrite IH.
Qed.

(** ** Counting the badges on the pages of a canvas *)

Lemma badges_on_pages_plain (l c : list op) (n : nat) :
  plain l → badges_on_pages (l ++ c) n = badges_on_pages c n.
Proof.
  induction 1 as [|o l [Hf Hs] _ IH]; [reflexivity|].
  cbn [app badges_on_pages]. rewrite Hf.
  destruct o; try assumption. contradiction.
Qed.

Lemma title_footer_plain (cfg : Config) : plain (title_footer cfg).
Proof. repeat constructor; discriminate. Qed.

Lemma entity_footer_plain (cfg : Config) (entities : list (string * gmap string string))
    (eid : string) :
  plain (entity_footer cfg entities eid).
Proof. repeat constructor; discriminate. Qed.

Lemma badges_on_pages_badge (cfg : Config) (g : Geometry) (p : Participant) (i : Z)
    (c : list op) (n : nat) :
  cols g ≠ 0 →
  badges_on_pages (drawn (draw_badge cfg g p i) ++ c) n = badges_on_pages c (S n).
Proof.
  intros Hc. unfold draw_badge.
  destruct (badge_anchor_ok cfg g i Hc) as [a ->]. cbn.
  destruct (nonempty (participant_id p)); reflexivity.
Qed.

Lemma badges_on_pages_page_badges (cfg : Config) (g : Geometry)
    (page : list Participant) (c : list op) (n : nat) :
  cols g ≠ 0 →
  badges_on_pages (page_badges cfg g page ++ c) n
  = badges_on_pages c (n + length page).
Proof.
  intros Hc. revert c. induction page as [|p page IH] using rev_ind; intros c.
  - cbn. now rewrite Nat.add_0_r.
  - rewrite page_badges_snoc, <- app_assoc, IH, badges_on_pages_badge by assumption.
    rewrite length_app. cbn. f_equal. lia.
Qed.

Lemma badges_on_pages_plan {A : Type} (cfg : Config) (g : Geometry)
    (footer : A → list op) (badges : A → list Participant) (pages : list A) :
  cols g ≠ 0 → (∀ a, plain (footer a)) →
  badges_on_pages (flat_map (fun a => page_ops cfg g (footer a) (badges a)) pages) 0
  = map (fun a => length (badges a)) pages.
Proof.
  intros Hc Hf. induction pages as [|a pages IH]; [reflexivity|].
  cbn [flat_map map]. unfold page_ops at 1.
  rewrite <- !app_assoc, badges_on_pages_plain by apply Hf.
  rewrite badges_on_pages_page_badges by assumption.
  cbn. now rewrite IH.
Qed.

(** ** [generate_badges_pdf] *)

Lemma generate_saves (cfg : Config) (g : Geometry)
    (entities : list (string * gmap string string))
    (pbe : list (string * list Participant)) (out title : string)
    (group : bool) (c : list op) :
  pbe ≠ [] → computeGeometry cfg = Ok g →
  (if group then render_grouped cfg g pbe else render_per_entity cfg g entities pbe)
  = Ok c →
  generate_badges_pdf_at cfg entities pbe out title group
  = ([SavePDF out c;
      Print (Summary title out (length pbe) (total_participants pbe))], Ok tt).
Proof.
  intros Hne Hg Hc. unfold generate_badges_pdf_at.
  destruct pbe as [|item pbe]; [contradiction|].
  rewrite Hg. cbn [lift mbind run_bind]. rewrite Hc. reflexivity.
Qed.


(** C3: under the grouped policy with room for at least one badge per page,
    the canvas saved for a non-empty mapping consists of the pages formed by
    closing a page when a badge arrives and the page already holds
    [badges_per_page] badges; every page but the last holds exactly
    [badges_per_page] badges, and the last holds [total mod badges_per_page]
    badges, or [badges_per_page] when the total divides evenly (a mapping
    whose lists are all empty gives one page with [0 = total mod
    badges_per_page] badges). *)
Theorem grouped_pagination (cfg : Config) (g : Geometry)
    (entities : list (string * gmap string string))
    (pbe : list (string * list Participant)) (out title : string) :
  computeGeometry cfg = Ok g → 0 < badges_per_page g → pbe ≠ [] →
  let bpp := badges_per_page g in
  let total := Z.of_nat (length (all_participants pbe)) in
  let pages := fill bpp (all_participants pbe) [] in
  let c := flat_map (page_ops cfg g (title_footer cfg)) pages in
  generate_badges_pdf_at cfg entities pbe out title true
  = ([SavePDF out c;
      Print (Summary title out (length pbe) (total_participants pbe))], Ok tt)
  ∧ concat pages = all_participants pbe
  ∧ badges_on_pages c 0 = map length pages
  ∧ (∀ i n, badges_on_pages c 0 !! i = Some n →
            (S i < length (badges_on_pages c 0))%nat → Z.of_nat n = bpp)
  ∧ (∃ n, last (badges_on_pages c 0) = Some n
          ∧ (Z.of_nat n = total mod bpp ∨ (total mod bpp = 0 ∧ Z.of_nat n = bpp))
          ∧ (total mod bpp ≠ 0 → Z.of_nat n = total mod bpp)
          ∧ (0 < total → total mod bpp = 0 → Z.of_nat n = bpp)).
Proof.
  intros Hg Hb Hne.
  assert (Hc : cols g ≠ 0).
  { pose proof (computeGeometry_bpp cfg g Hg) as Hbpp. intros E.
    rewrite Hbpp, E, Z.mul_0_l in Hb. now apply Z.lt_irrefl in Hb. }
  intros bpp total pages c.
  assert (Hcount : badges_on_pages c 0 = map length pages).
  { subst c. apply (badges_on_pages_plan cfg g (fun _ => title_footer cfg) id);
      [assumption | intros _; apply title_footer_plain]. }
  split; [|split; [|split; [|split]]].
  - apply (generate_saves cfg g); [assumption..|].
    now apply render_grouped_plan.
  - subst pages. now rewrite fill_concat.
  - exact Hcount.
  - rewrite Hcount, length_map. intros i n Hi Hlt.
    apply list_lookup_fmap_Some in Hi as (page & -> & Hpage).
    apply (fill_full_pages bpp (all_participants pbe) [] i page Hb);
      [cbn; unfold bpp; lia | exact Hpage | exact Hlt].
  - destruct (fill_last_page bpp (all_participants pbe) [] Hb) as (lp & Hlast & Hlen);
      [cbn; unfold bpp; lia|].
    cbn [app] in Hlen. fold total in Hlen. fold pages in Hlast.
    exists (length lp). rewrite Hcount, fmap_last, Hlast. split; [reflexivity|].
    rewrite Hlen.
    destruct (Z.ltb_spec 0 total) as [Hpos|Hzero];
      destruct (Z.eqb_spec (total mod bpp) 0) as [Hdiv|Hrem]; cbn [andb];
      repeat split; auto; try contradiction; try lia.
Qed.

Lemma grouped_pagination_witness :
  badges_on_pages
    (flat_map (page_ops default_config
                 (drawn_geometry default_config) (title_footer default_config))
       (fill 20 (all_participants sample_participants) [])) 0
  = [3%nat].
Proof.
  pose proof (grouped_pagination default_config (drawn_geometry default_config) []
                sample_participants "out.pdf" "Badges") as H.
  destruct H as (_ & _ & Hcount & _); [reflexivity | reflexivity | discriminate |].
  exact Hcount.
Defined.

(** In exact arithmetic, for badge sides that are not zero, [computeGeometry]
    returns the geometry given by the formulas: the usable area is the page less the two
    margins (and less the footer band in height), the column and row counts
    are the floors of usable size over badge size, a page holds columns times
    rows badges, and the spacing is the leftover space over count plus one when
    the count exceeds 1 and zero otherwise.  Being floors, the counts never
    let the badges exceed the usable area. *)
Theorem computeGeometry_formulas (cfg : Config) :
  ¬ (badge_width cfg == 0)%Q → ¬ (badge_height cfg == 0)%Q →
  ∃ g, computeGeometry cfg = Ok g
    ∧ usable_width g = (page_width cfg - 2 * margin cfg)%Q
    ∧ usable_height g = (page_height cfg - 2 * margin cfg - footer_height cfg)%Q
    ∧ cols g = Qfloor (usable_width g / badge_width cfg)
    ∧ rows g = Qfloor (usable_height g / badge_height cfg)
    ∧ badges_per_page g = cols g * rows g
    ∧ (1 < cols g →
       h_spacing g = ((usable_width g - inject_Z (cols g) * badge_width cfg)
                      / inject_Z (cols g + 1))%Q)
    ∧ (cols g ≤ 1 → h_spacing g = 0%Q)
    ∧ (1 < rows g →
       v_spacing g = ((usable_height g - inject_Z (rows g) * badge_height cfg)
                      / inject_Z (rows g + 1))%Q)
    ∧ (rows g ≤ 1 → v_spacing g = 0%Q)
    ∧ ((0 < badge_width cfg)%Q →
       (inject_Z (cols g) * badge_width cfg <= usable_width g)%Q
       ∧ (usable_width g < inject_Z (cols g + 1) * badge_width cfg)%Q)
    ∧ ((0 < badge_height cfg)%Q →
       (inject_Z (rows g) * badge_height cfg <= usable_height g)%Q
       ∧ (usable_height g < inject_Z (rows g + 1) * badge_height cfg)%Q).
Proof.
  intros Hw Hh. eexists. split; [apply (computeGeometry_ok cfg Hw Hh)|].
  cbn [usable_width usable_height cols rows badges_per_page h_spacing v_spacing].
  repeat split.
  - intros H. now destruct (Z.ltb_spec 1 (Qfloor ((page_width cfg - 2 * margin cfg)
                                                   / badge_width cfg))); [|lia].
  - intros H. now destruct (Z.ltb_spec 1 (Qfloor ((page_width cfg - 2 * margin cfg)
                                                   / badge_width cfg))); [lia|].
  - intros H. now destruct (Z.ltb_spec 1 (Qfloor ((page_height cfg - 2 * margin cfg
                                                    - footer_height cfg)
                                                   / badge_height cfg))); [|lia].
  - intros H. now destruct (Z.ltb_spec 1 (Qfloor ((page_height cfg - 2 * margin cfg
                                                    - footer_height cfg)
                                                   / badge_height cfg))); [lia|].
  - now apply floor_fits.
  - now apply floor_fits.
  - now apply floor_fits.
  - now apply floor_fits.
Qed.

Lemma computeGeometry_formulas_witness :
  ∃ g, computeGeometry default_config = Ok g
       ∧ cols g = 4 ∧ rows g = 5 ∧ badges_per_page g = 20
       ∧ (h_spacing g == 6 * mm)%Q ∧ (v_spacing g == 2 * mm)%Q.
Proof.
  destruct (computeGeometry_formulas default_config) as (g & Hg & _);
    [discriminate | discriminate |].
  exists g. split; [exact Hg|].
  injection Hg as <-. now vm_compute.
Defined.

(** ** Badge positions *)

(** Where [badge_anchor] puts a badge: with a positive column count, badge [i] of a page sits in
    column [i mod cols] and row [i div cols]; its left edge is at margin plus
    spacing plus the column times badge width and spacing, and its top edge,
    measured from the top of the page, is at margin plus the footer band plus
    spacing plus the row times badge height and spacing; [draw_badge] turns
    this into the canvas' bottom-left origin and draws the label centred in
    the strip below the code. *)
Theorem badge_anchor_position (cfg : Config) (g : Geometry) (participant : Participant)
    (i : Z) :
  0 < cols g →
  ∃ a, badge_anchor cfg g i = Ok a
    ∧ a_col a = i mod cols g
    ∧ a_row a = i / cols g
    ∧ a_x a = (margin cfg + h_spacing g
               + inject_Z (a_col a) * (badge_width cfg + h_spacing g))%Q
    ∧ a_y_from_top a = (margin cfg + footer_height cfg + v_spacing g
                        + inject_Z (a_row a) * (badge_height cfg + v_spacing g))%Q
    ∧ a_y a = (page_height cfg - a_y_from_top a - badge_height cfg)%Q
    ∧ (0 ≤ i → 0 ≤ a_col a < cols g ∧ 0 ≤ a_row a)
    ∧ ∃ qr, draw_badge cfg g participant i
            = Ok (qr ++ [SetFont "Helvetica" 7;
                         DrawCentredString (a_x a + qr_size cfg / 2)
                           (a_y a + text_space cfg / 2)
                           (name_label (name participant))]).
Proof.
  intros Hc. unfold draw_badge, badge_anchor, py_imod, py_idiv.
  destruct (Z.eqb_spec (cols g) 0) as [E|_]; [lia|].
  cbn. eexists. split; [reflexivity|]. cbn.
  repeat split; try reflexivity.
  - now apply Z.mod_pos_bound.
  - now apply Z.mod_pos_bound.
  - now apply Z.div_pos.
  - eexists. reflexivity.
Qed.

Lemma badge_anchor_position_witness :
  ∃ a, badge_anchor default_config (drawn_geometry default_config) 6 = Ok a
       ∧ a_col a = 2 ∧ a_row a = 1
       ∧ (a_x a == 108 * mm)%Q ∧ (a_y_from_top a == 79 * mm)%Q
       ∧ (a_y a == 168 * mm)%Q.
Proof.
  destruct (badge_anchor_position default_config (drawn_geometry default_config) ada 6)
    as (a & Ha & _); [reflexivity|].
  exists a. split; [exact Ha|].
  injection Ha as <-. now vm_compute.
Defined.

(** C2: in the program's own layout the top edge of badge 0 is 27 mm below
    the top of the page, where margin plus spacing gives 12 mm: line 174 adds
    the footer band of 15 mm, which lines 124-129 reserve at the bottom of the
    page, to the offset from the top. *)
Lemma badge_anchor_footer_offset :
  ∃ g a, computeGeometry default_config = Ok g ∧ 0 < cols g
    ∧ badge_anchor default_config g 0 = Ok a
    ∧ a_col a = 0 ∧ a_row a = 0
    ∧ (a_y_from_top a == 27 * mm)%Q
    ∧ (margin default_config + v_spacing g
       + inject_Z (a_row a) * (badge_height default_config + v_spacing g)
       == 12 * mm)%Q
    ∧ ¬ (a_y_from_top a
         == margin default_config + v_spacing g
            + inject_Z (a_row a) * (badge_height default_config + v_spacing g))%Q.
Proof.
  eexists _, _. split; [reflexivity|]. split; [reflexivity|].
  split; [reflexivity|]. now vm_compute.
Qed.

(** ** Degenerate geometry *)

Lemma degenerate_pages (cfg : Config) (g : Geometry) (footer : list op)
    (ps : list Participant) :
  badges_per_page g ≤ 0 →
  flat_map (page_ops cfg g footer) (fill (badges_per_page g) ps [])
  = footer ++ [ShowPage]
    ++ flat_map (fun p => footer ++ drawn (draw_badge cfg g p 0) ++ [ShowPage]) ps.
Proof.
  intros Hb. rewrite fill_degenerate by assumption. cbn [flat_map].
  rewrite flat_map_over_map. unfold page_ops at 1.
  rewrite <- app_assoc. do 2 f_equal.
  apply flat_map_ext. intros p. unfold page_ops, page_badges. cbn.
  now rewrite app_nil_r.
Qed.

Lemma degenerate_per_entity (cfg : Config) (g : Geometry)
    (entities : list (string * gmap string string))
    (pbe : list (string * list Participant)) :
  badges_per_page g ≤ 0 →
  flat_map (fun page => page_ops cfg g (entity_footer cfg entities page.1) page.2)
    (per_entity_plan (badges_per_page g) pbe)
  = flat_map (fun item =>
                let footer := entity_footer cfg entities item.1 in
                footer ++ [ShowPage]
                ++ flat_map (fun p => footer ++ drawn (draw_badge cfg g p 0) ++ [ShowPage])
                     item.2) pbe.
Proof.
  intros Hb. unfold per_entity_plan.
  induction pbe as [|[eid ps] pbe IH]; [reflexivity|].
  cbn [flat_map fst snd]. rewrite flat_map_app, flat_map_over_map. cbn [fst snd].
  rewrite IH. f_equal.
  now apply (degenerate_pages cfg g (entity_footer cfg entities eid) ps).
Qed.



(** A geometry with no column or no row: it has room for zero
    badges per page, and computing it divides by nothing.  The compositor has
    no branch of its own for this case.  When the column count is not zero
    its page-full test holds before every badge: the first page carries the
    footer only, and every badge follows a page break and the footer and is
    drawn alone on its page at grid index 0. *)
Theorem degenerate_geometry (cfg : Config) (g : Geometry)
    (entities : list (string * gmap string string))
    (pbe : list (string * list Participant)) (out title : string) :
  computeGeometry cfg = Ok g → cols g = 0 ∨ rows g = 0 →
  badges_per_page g = 0
  ∧ (cols g ≠ 0 → pbe ≠ [] →
     let summary := Print (Summary title out (length pbe) (total_participants pbe)) in
     let alone footer p := footer ++ drawn (draw_badge cfg g p 0) ++ [ShowPage] in
     let grouped :=
       title_footer cfg ++ [ShowPage]
       ++ flat_map (alone (title_footer cfg)) (all_participants pbe) in
     let per_entity :=
       flat_map (fun item =>
                   let footer := entity_footer cfg entities item.1 in
                   footer ++ [ShowPage] ++ flat_map (alone footer) item.2) pbe in
     generate_badges_pdf_at cfg entities pbe out title true
     = ([SavePDF out grouped; summary], Ok tt)
     ∧ generate_badges_pdf_at cfg entities pbe out title false
       = ([SavePDF out per_entity; summary], Ok tt)
     ∧ badges_on_pages grouped 0
       = 0%nat :: map (fun _ => 1%nat) (all_participants pbe)).
Proof.
  intros Hg Hdeg.
  assert (Hb : badges_per_page g = 0).
  { rewrite (computeGeometry_bpp cfg g Hg). destruct Hdeg as [-> | ->]; lia. }
  split; [exact Hb|]. intros Hc Hne summary alone grouped per_entity.
  assert (Hgrouped : flat_map (page_ops cfg g (title_footer cfg))
                       (fill (badges_per_page g) (all_participants pbe) []) = grouped).
  { apply degenerate_pages. lia. }
  split; [|split].
  - apply (generate_saves cfg g); [assumption..|].
    rewrite render_grouped_plan by assumption. now rewrite Hgrouped.
  - apply (generate_saves cfg g); [assumption..|].
    rewrite render_per_entity_plan by assumption. f_equal.
    apply degenerate_per_entity. lia.
  - rewrite <- Hgrouped.
    rewrite (badges_on_pages_plan cfg g (fun _ => title_footer cfg) id);
      [|assumption | intros _; apply title_footer_plain].
    rewrite fill_degenerate by lia. cbn [map length]. f_equal.
    rewrite map_map. reflexivity.
Qed.

Lemma degenerate_geometry_witness :
  badges_per_page (drawn_geometry tall_badge_config) = 0
  ∧ ∃ c, generate_badges_pdf_at tall_badge_config [] sample_participants
           "out.pdf" "Badges" true
         = ([SavePDF "out.pdf" c; Print (Summary "Badges" "out.pdf" 2 3)], Ok tt)
         ∧ badges_on_pages c 0 = [0; 1; 1; 1]%nat.
Proof.
  destruct (degenerate_geometry tall_badge_config (drawn_geometry tall_badge_config) []
              sample_participants "out.pdf" "Badges") as (Hb & H);
    [reflexivity | right; reflexivity |].
  split; [exact Hb|].
  destruct H as (Hgr & _ & Hcount); [discriminate | discriminate |].
  eexists. split; [exact Hgr | exact Hcount].
Defined.

(** With a badge 250 mm wide the geometry
    has no column and zero badges per page, and the first badge drawn divides
    by the column count; nothing is saved. *)
Lemma degenerate_columns_raise :
  ∃ g, computeGeometry wide_badge_config = Ok g
    ∧ cols g = 0 ∧ badges_per_page g = 0
    ∧ generate_badges_pdf_at wide_badge_config [] [("E1", [ada])]
        "out.pdf" "Badges" true = ([], Raise ZeroDivisionError)
    ∧ generate_badges_pdf_at wide_badge_config [] [("E1", [ada])]
        "out.pdf" "Badges" false = ([], Raise ZeroDivisionError).
Proof. eexists. split; [reflexivity|]. now vm_compute. Qed.

(** ** Per-entity pages *)

(** A page of [fill] is a run of consecutive participants. *)
Lemma fill_page_run (bpp : Z) (ps cur page : list Participant) :
  page ∈ fill bpp ps cur → ∃ before after, cur ++ ps = before ++ page ++ after.
Proof.
  intros Hin. apply list_elem_of_split in Hin as (l1 & l2 & E).
  exists (concat l1), (concat l2).
  rewrite <- (fill_concat bpp ps cur), E, concat_app. reflexivity.
Qed.

Lemma fill_page_bound (bpp : Z) (ps cur page : list Participant) :
  0 < bpp → Z.of_nat (length cur) ≤ bpp →
  page ∈ fill bpp ps cur → Z.of_nat (length page) ≤ bpp.
Proof.
  intros Hb. revert cur; induction ps as [|p ps IH]; intros cur Hcur Hin.
  - cbn in Hin. apply list_elem_of_singleton in Hin as ->. assumption.
  - cbn [fill] in Hin.
    destruct (Z.leb_spec bpp (Z.of_nat (length cur))) as [Hfull|Hroom].
    + apply elem_of_cons in Hin as [->|Hin]; [assumption|].
      apply (IH [p]); [cbn; lia | assumption].
    + apply (IH (cur ++ [p])); [rewrite length_app; cbn; lia | assumption].
Qed.

Lemma per_entity_plan_owner (bpp : Z) (pbe : list (string * list Participant))
    (eid : string) (page : list Participant) :
  (eid, page) ∈ per_entity_plan bpp pbe →
  ∃ ps, (eid, ps) ∈ pbe ∧ page ∈ fill bpp ps [].
Proof.
  unfold per_entity_plan. rewrite list_elem_of_In, in_flat_map.
  intros ([eid' ps] & Hitem & Hpage). cbn [fst snd] in Hpage.
  apply in_map_iff in Hpage as (page' & [= <- <-] & Hpage).
  exists ps. now rewrite !list_elem_of_In.
Qed.

(** C4: under the per-entity policy the saved canvas is, entity by entity in
    the mapping's order, the pages of that entity alone: each page opens with
    that entity's footer, holds a run of that entity's participants (at most
    20), and ends with a page break; so no page holds badges of two entities,
    the page after an entity's last badge is closed whatever it holds, and
    every continuation page repeats the entity's footer. *)
Theorem per_entity_isolation (entities : list (string * gmap string string))
    (pbe : list (string * list Participant)) (out title : string) :
  pbe ≠ [] →
  ∃ g, computeGeometry default_config = Ok g ∧ badges_per_page g = 20 ∧
    let plan := per_entity_plan 20 pbe in
    let owned_page page :=
      entity_footer default_config entities page.1
      ++ page_badges default_config g page.2 ++ [ShowPage] in
    generate_badges_pdf entities pbe out title false
    = ([SavePDF out (flat_map owned_page plan);
        Print (Summary title out (length pbe) (total_participants pbe))], Ok tt)
    ∧ plan = flat_map (fun item => map (pair item.1) (fill 20 item.2 [])) pbe
    ∧ (∀ eid ps, (eid, ps) ∈ pbe →
         fill 20 ps [] ≠ [] ∧ concat (fill 20 ps []) = ps)
    ∧ (∀ eid page, (eid, page) ∈ plan →
         ∃ ps before after,
           (eid, ps) ∈ pbe ∧ ps = before ++ page ++ after
           ∧ (length page ≤ 20)%nat).
Proof.
  intros Hne. exists (drawn_geometry default_config).
  split; [reflexivity|]. split; [reflexivity|].
  intros plan owned_page. split; [|split; [|split]].
  - apply (generate_saves default_config (drawn_geometry default_config));
      [assumption | reflexivity |].
    now rewrite render_per_entity_plan.
  - reflexivity.
  - intros eid ps _. split; [|now rewrite fill_concat].
    destruct (fill_cons 20 ps []) as (pg & pgs & ->). discriminate.
  - intros eid page Hin.
    apply per_entity_plan_owner in Hin as (ps & Hitem & Hpage).
    destruct (fill_page_run _ _ _ _ Hpage) as (before & after & E).
    exists ps, before, after. split; [assumption|]. split; [exact E|].
    assert (Z.of_nat (length page) ≤ 20) as Hbound
      by (apply (fill_page_bound 20 ps []); [lia | cbn; lia | assumption]).
    lia.
Qed.

Lemma per_entity_isolation_witness :
  per_entity_plan 20 sample_participants = [("E1", [ada; bob]); ("E2", [cyd])]
  ∧ ∃ c, generate_badges_pdf [] sample_participants "out.pdf" "Badges" false
         = ([SavePDF "out.pdf" c; Print (Summary "Badges" "out.pdf" 2 3)], Ok tt)
         ∧ badges_on_pages c 0 = [2; 1]%nat.
Proof.
  destruct (per_entity_isolation [] sample_participants "out.pdf" "Badges")
    as (g & Hg & _ & Hrun & Hplan & _); [discriminate|].
  split; [exact Hplan|].
  eexists. split; [exact Hrun|].
  injection Hg as <-. now vm_compute.
Defined.

(** ** Stripping *)

Lemma rstrip_last (s : string) :
  match last_char (rstrip s) with
  | None => True
  | Some c => is_space c = false
  end.
Proof.
  induction s as [|c s IH]; [exact I|].
  cbn [rstrip]. destruct (rstrip s) as [|c' r] eqn:E.
  - destruct (is_space c) eqn:Ec; [exact I | exact Ec].
  - exact IH.
Qed.

Lemma rstrip_first (s : string) :
  match s with EmptyString => True | String c _ => is_space c = false end →
  match rstrip s with EmptyString => True | String c _ => is_space c = false end.
Proof.
  destruct s as [|c s]; [trivial|]. intros Hc. cbn [rstrip].
  destruct (rstrip s); [now rewrite Hc | exact Hc].
Qed.

Lemma lstrip_first (s : string) :
  match lstrip s with EmptyString => True | String c _ => is_space c = false end.
Proof.
  induction s as [|c s IH]; [exact I|].
  cbn [lstrip]. destruct (is_space c) eqn:Ec; [exact IH | exact Ec].
Qed.

Lemma strip_trimmed (s : string) : trimmed (strip s).
Proof.
  split; [apply rstrip_first, lstrip_first | apply rstrip_last].
Qed.

Lemma dict_get_absent (row : gmap string string) (key : string) :
  row !! key = None → strip (dict_get row key "") = "".
Proof. intros H. unfold dict_get. now rewrite H. Qed.

(** ** Ordered dictionaries *)

Section OrderedDictFacts.
Context {V : Type}.
Implicit Types (d : list (string * V)) (k : string) (v : V).

Lemma od_get_set_eq k v d : od_get k (od_set k v d) = Some v.
Proof.
  induction d as [|[k' v'] d IH]; cbn.
  - now rewrite decide_True.
  - destruct (decide (k = k')) as [->|Hne]; cbn.
    + now rewrite decide_True.
    + now rewrite decide_False.
Qed.

Lemma od_get_set_ne k k' v d : k ≠ k' → od_get k' (od_set k v d) = od_get k' d.
Proof.
  intros Hne. induction d as [|[k0 v0] d IH]; cbn.
  - rewrite decide_False by congruence. reflexivity.
  - destruct (decide (k = k0)) as [->|Hne0]; cbn.
    + rewrite !decide_False by congruence. reflexivity.
    + now rewrite IH.
Qed.

Lemma od_get_None k d : od_get k d = None ↔ k ∉ od_keys d.
Proof.
  unfold od_keys. induction d as [|[k' v'] d IH]; cbn.
  - split; [intros _; apply not_elem_of_nil | reflexivity].
  - rewrite not_elem_of_cons. destruct (decide (k = k')) as [->|Hne].
    + split; [discriminate | intros [? _]; contradiction].
    + rewrite IH. tauto.
Qed.

Lemma od_get_Some_elem k v d : od_get k d = Some v → (k, v) ∈ d.
Proof.
  induction d as [|[k' v'] d IH]; cbn; [discriminate|].
  destruct (decide (k = k')) as [->|Hne].
  - intros [= ->]. apply list_elem_of_here.
  - intros H. apply list_elem_of_further, IH, H.
Qed.

Lemma od_get_is_Some k d : is_Some (od_get k d) ↔ k ∈ od_keys d.
Proof.
  destruct (od_get k d) as [v|] eqn:E.
  - split; [intros _ | eauto].
    destruct (decide (k ∈ od_keys d)) as [|Hn]; [assumption|].
    apply od_get_None in Hn. congruence.
  - split; [intros [? [=]] | intros Hin]. now apply od_get_None in E.
Qed.

Lemma od_elem_get k v d : od_wf d → (k, v) ∈ d → od_get k d = Some v.
Proof.
  unfold od_wf, od_keys. induction d as [|[k' v'] d IH]; cbn.
  - intros _ H. now apply elem_of_nil in H.
  - rewrite NoDup_cons. intros [Hk Hd] Hin.
    apply elem_of_cons in Hin as [[= -> ->]|Hin]; [now rewrite decide_True|].
    destruct (decide (k = k')) as [->|Hne]; [|now apply IH].
    exfalso. apply Hk. apply list_elem_of_fmap. now exists (k', v).
Qed.

Lemma od_set_fresh k v d : k ∉ od_keys d → od_set k v d = d ++ [(k, v)].
Proof.
  unfold od_keys. induction d as [|[k' v'] d IH]; cbn; [reflexivity|].
  rewrite not_elem_of_cons. intros [Hne Hk].
  rewrite decide_False by assumption. now rewrite IH.
Qed.

Lemma od_keys_set k v d :
  od_keys (od_set k v d) = if decide (k ∈ od_keys d) then od_keys d else od_keys d ++ [k].
Proof.
  unfold od_keys. induction d as [|[k' v'] d IH]; cbn.
  - rewrite decide_False by apply not_elem_of_nil. reflexivity.
  - destruct (decide (k = k')) as [->|Hne]; cbn.
    + rewrite decide_True by apply list_elem_of_here. reflexivity.
    + rewrite IH. destruct (decide (k ∈ d.*1)) as [Hin|Hnin].
      * rewrite decide_True by now apply list_elem_of_further. reflexivity.
      * rewrite decide_False; [reflexivity|].
        rewrite not_elem_of_cons. now split.
Qed.

Lemma od_wf_set k v d : od_wf d → od_wf (od_set k v d).
Proof.
  unfold od_wf. rewrite od_keys_set. intros Hd.
  destruct (decide (k ∈ od_keys d)) as [Hin|Hnin]; [assumption|].
  apply NoDup_app. split; [assumption|]. split.
  - intros x Hx Hk. apply list_elem_of_singleton in Hk as ->. contradiction.
  - apply NoDup_singleton.
Qed.

Lemma od_elem_keys_set k k' v d :
  k' ∈ od_keys (od_set k v d) ↔ k' = k ∨ k' ∈ od_keys d.
Proof.
  rewrite od_keys_set. destruct (decide (k ∈ od_keys d)) as [Hin|Hnin].
  - split; [tauto | intros [->|H]; assumption].
  - rewrite elem_of_app, list_elem_of_singleton. tauto.
Qed.

End OrderedDictFacts.

(** ** The record loader *)

Lemma load_entities_from_missing (rows : list (gmap string string))
    (acc : list (string * gmap string string)) :
  (∃ row, row ∈ rows ∧ row !! "entity_id" = None) →
  load_entities_from rows acc = Raise (KeyError "entity_id").
Proof.
  intros (row & Hin & Hrow). revert acc.
  induction rows as [|r rows IH]; intros acc; [now apply elem_of_nil in Hin|].
  cbn [load_entities_from]. unfold dict_item.
  destruct (r !! "entity_id") as [e|] eqn:E; [|reflexivity].
  cbn. apply IH. apply elem_of_cons in Hin as [->|Hin]; [congruence | assumption].
Qed.

Lemma load_participants_from_missing (rows : list (gmap string string))
    (acc : list (string * list Participant)) :
  (∃ row, row ∈ rows ∧ row !! "entity_id" = None) →
  load_participants_from rows acc = Raise (KeyError "entity_id").
Proof.
  intros (row & Hin & Hrow). revert acc.
  induction rows as [|r rows IH]; intros acc; [now apply elem_of_nil in Hin|].
  cbn [load_participants_from]. unfold dict_item.
  destruct (r !! "entity_id") as [e|] eqn:E; [|reflexivity].
  cbn. apply IH. apply elem_of_cons in Hin as [->|Hin]; [congruence | assumption].
Qed.

Lemma load_entities_from_ok (rows : list (gmap string string))
    (acc : list (string * gmap string string)) :
  (∀ row, row ∈ rows → is_Some (row !! "entity_id")) →
  ∃ entities, load_entities_from rows acc = Ok entities.
Proof.
  revert acc. induction rows as [|r rows IH]; intros acc Hrows; [cbn; eauto|].
  cbn [load_entities_from]. unfold dict_item.
  destruct (Hrows r) as [e ->]; [apply list_elem_of_here|]. cbn.
  apply IH. intros row Hin. apply Hrows. now apply list_elem_of_further.
Qed.

Lemma load_participants_from_ok (rows : list (gmap string string))
    (acc : list (string * list Participant)) :
  (∀ row, row ∈ rows → is_Some (row !! "entity_id")) →
  ∃ participants, load_participants_from rows acc = Ok participants.
Proof.
  revert acc. induction rows as [|r rows IH]; intros acc Hrows; [cbn; eauto|].
  cbn [load_participants_from]. unfold dict_item.
  destruct (Hrows r) as [e ->]; [apply list_elem_of_here|]. cbn.
  apply IH. intros row Hin. apply Hrows. now apply list_elem_of_further.
Qed.

(** What the loaded dictionaries hold comes from the rows. *)
Lemma load_entities_from_inv (rows : list (gmap string string))
    (acc entities : list (string * gmap string string)) :
  load_entities_from rows acc = Ok entities →
  (od_wf acc → od_wf entities)
  ∧ (∀ eid, eid ∈ od_keys entities
            ↔ eid ∈ od_keys acc ∨ ∃ row, row ∈ rows ∧ row_key row eid)
  ∧ (∀ eid info, od_get eid entities = Some info →
       od_get eid acc = Some info
       ∨ ∃ row, row ∈ rows ∧ row_key row eid ∧ info = entity_of_row row).
Proof.
  revert acc. induction rows as [|r rows IH]; intros acc Hload.
  - cbn in Hload. injection Hload as <-. split; [tauto|]. split; [|tauto].
    intros eid. split; [tauto|]. intros [H|(row & Hin & _)]; [assumption|].
    now apply elem_of_nil in Hin.
  - cbn [load_entities_from] in Hload. unfold dict_item in Hload.
    destruct (r !! "entity_id") as [e|] eqn:E; [|discriminate]. cbn in Hload.
    apply IH in Hload as (Hwf & Hkeys & Hget). split; [|split].
    + intros Hacc. now apply Hwf, od_wf_set.
    + intros eid. rewrite Hkeys, od_elem_keys_set. split.
      * intros [[->|H]|(row & Hin & Hrow)]; [right | now left | right].
        -- exists r. split; [apply list_elem_of_here | now exists e].
        -- exists row. split; [now apply list_elem_of_further | assumption].
      * intros [H|(row & Hin & Hrow)]; [now left; right|].
        apply elem_of_cons in Hin as [->|Hin].
        -- destruct Hrow as (e' & He' & ->). left; left. congruence.
        -- right. now exists row.
    + intros eid info Hinfo. destruct (Hget eid info Hinfo) as [H|(row & Hin & Hrow)].
      * destruct (decide (strip e = eid)) as [<-|Hne].
        -- rewrite od_get_set_eq in H. injection H as <-. right.
           exists r. split; [apply list_elem_of_here|].
           split; [now exists e | reflexivity].
        -- rewrite od_get_set_ne in H by assumption. now left.
      * right. exists row. split; [now apply list_elem_of_further | assumption].
Qed.

Lemma load_participants_from_inv (rows : list (gmap string string))
    (acc participants : list (string * list Participant)) :
  load_participants_from rows acc = Ok participants →
  (od_wf acc → od_wf participants)
  ∧ (∀ eid ps p, od_get eid participants = Some ps → p ∈ ps →
       (∃ ps0, od_get eid acc = Some ps0 ∧ p ∈ ps0)
       ∨ ∃ row, row ∈ rows ∧ row_key row eid ∧ p = participant_of_row row).
Proof.
  revert acc. induction rows as [|r rows IH]; intros acc Hload.
  - cbn in Hload. injection Hload as <-. split; [tauto|]. eauto.
  - cbn [load_participants_from] in Hload. unfold dict_item in Hload.
    destruct (r !! "entity_id") as [e|] eqn:E; [|discriminate]. cbn in Hload.
    apply IH in Hload as (Hwf & Hget). split.
    + intros Hacc. now apply Hwf, od_wf_set.
    + intros eid ps p Hps Hp.
      destruct (Hget eid ps p Hps Hp) as [(ps0 & H & Hp0)|(row & Hin & Hrow)].
      * destruct (decide (strip e = eid)) as [<-|Hne].
        -- rewrite od_get_set_eq in H. injection H as <-.
           apply elem_of_app in Hp0 as [Hold|Hnew].
           ++ left. destruct (od_get (strip e) acc) as [ps1|]; cbn in Hold.
              ** eauto.
              ** now apply elem_of_nil in Hold.
           ++ apply list_elem_of_singleton in Hnew as ->. right.
              exists r. split; [apply list_elem_of_here|].
              split; [now exists e | reflexivity].
        -- rewrite od_get_set_ne in H by assumption. eauto.
      * right. exists row. split; [now apply list_elem_of_further | assumption].
Qed.

Lemma load_entities_wf (rows : list (gmap string string))
    (entities : list (string * gmap string string)) :
  load_entities rows = Ok entities → od_wf entities.
Proof.
  intros H. apply load_entities_from_inv in H as (Hwf & _). apply Hwf, NoDup_nil_2.
Qed.

Lemma load_participants_wf (rows : list (gmap string string))
    (participants : list (string * list Participant)) :
  load_participants rows = Ok participants → od_wf participants.
Proof.
  intros H. apply load_participants_from_inv in H as (Hwf & _). apply Hwf, NoDup_nil_2.
Qed.

(** ** Partition and dispatch *)

(** Both loops of [main] that split a dictionary in two keep the entries in
    order, each on the side its test sends it to. *)
Section PartitionLoop.
Context {V : Type} (test : string * V → bool).
Context (loop : list (string * V) → list (string * V) → list (string * V)
                → list (string * V) * list (string * V)).
Hypothesis loop_nil : ∀ p d, loop [] p d = (p, d).
Hypothesis loop_cons : ∀ k v rest p d,
  loop ((k, v) :: rest) p d
  = if test (k, v) then loop rest (od_set k v p) d else loop rest p (od_set k v d).

Lemma partition_loop_filter (items p d : list (string * V)) :
  NoDup (od_keys p ++ od_keys items) → NoDup (od_keys d ++ od_keys items) →
  loop items p d
  = (p ++ List.filter test items,
     d ++ List.filter (fun item => negb (test item)) items).
Proof.
  unfold od_keys. revert p d. induction items as [|[k v] items IH]; intros p d Hp Hd.
  - rewrite loop_nil. cbn. now rewrite !app_nil_r.
  - rewrite loop_cons. cbn [List.filter fmap list_fmap fst] in *.
    assert (Hkp : k ∉ p.*1).
    { apply NoDup_app in Hp as (_ & Hp & _). intros Hin. apply (Hp k Hin), list_elem_of_here. }
    assert (Hkd : k ∉ d.*1).
    { apply NoDup_app in Hd as (_ & Hd & _). intros Hin. apply (Hd k Hin), list_elem_of_here. }
    assert (Hp' : NoDup (p.*1 ++ items.*1)).
    { apply NoDup_app in Hp as (H1 & H2 & H3). apply NoDup_cons in H3 as [_ H3].
      apply NoDup_app. repeat split; [assumption| |assumption].
      intros x Hx Hin. apply (H2 x Hx). now apply list_elem_of_further. }
    assert (Hd' : NoDup (d.*1 ++ items.*1)).
    { apply NoDup_app in Hd as (H1 & H2 & H3). apply NoDup_cons in H3 as [_ H3].
      apply NoDup_app. repeat split; [assumption| |assumption].
      intros x Hx Hin. apply (H2 x Hx). now apply list_elem_of_further. }
    destruct (test (k, v)); cbn [negb].
    + rewrite od_set_fresh by assumption. rewrite IH.
      * now rewrite <- app_assoc.
      * rewrite fmap_app, <- app_assoc. exact Hp.
      * assumption.
    + rewrite od_set_fresh by assumption. rewrite IH.
      * now rewrite <- app_assoc.
      * assumption.
      * rewrite fmap_app, <- app_assoc. exact Hd.
Qed.
End PartitionLoop.

Lemma classify_entities_filter (entities : list (string * gmap string string)) :
  od_wf entities →
  classify_entities entities [] []
  = (List.filter (fun item => is_private_delegate item.2) entities,
     List.filter (fun item => negb (is_private_delegate item.2)) entities).
Proof.
  intros Hwf.
  apply (partition_loop_filter (fun item => is_private_delegate item.2)
           classify_entities); [reflexivity | reflexivity | exact Hwf | exact Hwf].
Qed.

Lemma split_participants_filter (entities : list (string * gmap string string))
    (all : list (string * list Participant)) :
  od_wf all →
  split_participants entities all [] []
  = (List.filter (fun item => routed_private entities item.1) all,
     List.filter (fun item => negb (routed_private entities item.1)) all).
Proof.
  intros Hwf.
  apply (partition_loop_filter (fun item => routed_private entities item.1)
           (split_participants entities));
    [reflexivity | reflexivity | exact Hwf | exact Hwf].
Qed.

Lemma od_keys_filter {V : Type} (test : string * V → bool) (d : list (string * V))
    (k : string) :
  od_wf d →
  k ∈ od_keys (List.filter test d) ↔ ∃ v, od_get k d = Some v ∧ test (k, v) = true.
Proof.
  intros Hwf. unfold od_keys. rewrite list_elem_of_fmap. split.
  - intros ([k' v] & -> & Hin). apply list_elem_of_In, filter_In in Hin as [Hin Ht].
    exists v. split; [|exact Ht]. apply od_elem_get; [assumption|].
    now apply list_elem_of_In.
  - intros (v & Hget & Ht). exists (k, v). split; [reflexivity|].
    apply list_elem_of_In, filter_In. split; [|exact Ht].
    now apply list_elem_of_In, od_get_Some_elem.
Qed.

Lemma od_get_filter {V : Type} (test : string * V → bool) (d : list (string * V))
    (k : string) (v : V) :
  od_wf d → od_get k d = Some v →
  od_get k (List.filter test d) = if test (k, v) then Some v else None.
Proof.
  intros Hwf Hget. destruct (test (k, v)) eqn:Ht.
  - apply od_elem_get.
    + unfold od_wf, od_keys in *. clear Hget. induction d as [|[k' v'] d IH]; [constructor|].
      cbn in Hwf. apply NoDup_cons in Hwf as [Hk Hd]. cbn [List.filter].
      destruct (test (k', v')); [|now apply IH].
      cbn. apply NoDup_cons. split; [|now apply IH].
      intros Hin. apply Hk. apply list_elem_of_fmap in Hin as ([k0 v0] & -> & Hin).
      apply list_elem_of_In, filter_In in Hin as [Hin _].
      apply list_elem_of_fmap. exists (k0, v0). split; [reflexivity|].
      now apply list_elem_of_In.
    + apply list_elem_of_In, filter_In. split; [|exact Ht].
      now apply list_elem_of_In, od_get_Some_elem.
  - apply od_get_None. intros Hin.
    apply od_keys_filter in Hin as (v' & Hget' & Ht'); [|assumption].
    congruence.
Qed.

(** C7: of the entities loaded from the entities file, each identifier goes
    to exactly one of the two dictionaries built on lines 273-281: to the
    private-delegate one exactly when its lower-cased type contains
    "private delegate", to the delegation one otherwise. *)
Theorem classification_complete (entities_file : list (gmap string string))
    (entities private_delegate_entities delegation_entities
       : list (string * gmap string string)) :
  load_entities entities_file = Ok entities →
  classify_entities entities [] [] = (private_delegate_entities, delegation_entities) →
  (∀ eid, (∃ row, row ∈ entities_file ∧ row_key row eid) ↔ eid ∈ od_keys entities)
  ∧ (∀ eid, eid ∈ od_keys entities
            ↔ eid ∈ od_keys private_delegate_entities
              ∨ eid ∈ od_keys delegation_entities)
  ∧ (∀ eid, ¬ (eid ∈ od_keys private_delegate_entities
               ∧ eid ∈ od_keys delegation_entities))
  ∧ (∀ eid info, od_get eid entities = Some info →
       let private :=
         contains "private delegate" (lower (dict_get info "entity_type" "")) in
       od_get eid private_delegate_entities = (if private then Some info else None)
       ∧ od_get eid delegation_entities = (if private then None else Some info)).
Proof.
  intros Hload Hclass.
  pose proof (load_entities_wf _ _ Hload) as Hwf.
  rewrite (classify_entities_filter entities Hwf) in Hclass.
  injection Hclass as <- <-.
  apply load_entities_from_inv in Hload as (_ & Hkeys & _).
  split; [|split; [|split]].
  - intros eid. rewrite Hkeys. split; [tauto|].
    intros [H|H]; [now apply elem_of_nil in H | assumption].
  - intros eid. rewrite !od_keys_filter by assumption. rewrite <- od_get_is_Some.
    split.
    + intros [info Hinfo]. cbn [snd].
      destruct (is_private_delegate info) eqn:E; [left | right]; exists info;
        cbn [snd]; rewrite E; now split.
    + intros [(info & Hinfo & _)|(info & Hinfo & _)]; eauto.
  - intros eid. rewrite !od_keys_filter by assumption.
    intros [(info & Hinfo & Ht) (info' & Hinfo' & Hf)]. cbn [snd] in Ht, Hf.
    rewrite Hinfo in Hinfo'. injection Hinfo' as <-. rewrite Ht in Hf. discriminate.
  - intros eid info Hinfo private.
    rewrite (od_get_filter _ entities eid info Hwf Hinfo).
    rewrite (od_get_filter _ entities eid info Hwf Hinfo). cbn [snd].
    change (is_private_delegate info) with private.
    now destruct private.
Qed.

Lemma classification_complete_witness :
  od_keys (classify_entities (drawn_entities sample_entities_file) [] []).1 = ["E2"]
  ∧ od_keys (classify_entities (drawn_entities sample_entities_file) [] []).2
    = ["E1"; "E3"]
  ∧ ¬ ("E2" ∈ ["E2"] ∧ "E2" ∈ ["E1"; "E3"]).
Proof.
  pose proof (classification_complete sample_entities_file
                (drawn_entities sample_entities_file)
                (classify_entities (drawn_entities sample_entities_file) [] []).1
                (classify_entities (drawn_entities sample_entities_file) [] []).2
                eq_refl eq_refl) as (_ & _ & Hdisj & _).
  split; [reflexivity|]. split; [reflexivity|]. exact (Hdisj "E2").
Defined.

(** ** [main] *)

Lemma load_entities_from_raise (rows : list (gmap string string))
    (acc : list (string * gmap string string)) (e : exn) :
  load_entities_from rows acc = Raise e → e = KeyError "entity_id".
Proof.
  revert acc. induction rows as [|r rows IH]; intros acc; [discriminate|].
  cbn [load_entities_from]. unfold dict_item.
  destruct (r !! "entity_id"); cbn; [apply IH | congruence].
Qed.

Lemma main_at_entities_raise (cfg : Config)
    (entities_file participants_file : list (gmap string string)) (e : exn) :
  load_entities entities_file = Raise e →
  main_at cfg entities_file participants_file = ([Print LoadingData], Raise e).
Proof. intros H. unfold main_at. cbn. now rewrite H. Qed.

Lemma main_at_participants_raise (cfg : Config)
    (entities_file participants_file : list (gmap string string))
    (entities : list (string * gmap string string)) (e : exn) :
  load_entities entities_file = Ok entities →
  load_participants participants_file = Raise e →
  main_at cfg entities_file participants_file = ([Print LoadingData], Raise e).
Proof. intros H1 H2. unfold main_at. cbn. now rewrite H1, H2. Qed.

Lemma main_at_loaded (cfg : Config)
    (entities_file participants_file : list (gmap string string))
    (entities pe de : list (string * gmap string string))
    (all pp dp : list (string * list Participant)) :
  load_entities entities_file = Ok entities →
  load_participants participants_file = Ok all →
  classify_entities entities [] [] = (pe, de) →
  split_participants entities all [] [] = (pp, dp) →
  main_at cfg entities_file participants_file
  = (print LoadingData;;
     print (Found (length pe) (length de));;
     print GeneratingPDFs;;
     generate_badges_pdf_at cfg entities pp
       private_delegates_pdf "Private Delegates PDF" true;;
     generate_badges_pdf_at cfg entities dp
       delegations_pdf "Delegations PDF" false;;
     print AllGenerated).
Proof.
  intros H1 H2 H3 H4. unfold main_at. cbn. rewrite H1, H2. cbn. rewrite H3, H4.
  destruct (generate_badges_pdf_at cfg entities pp _ _ _ ≫= _) as [evs r].
  reflexivity.
Qed.

(** C8: for an empty mapping [generate_badges_pdf] prints one line and
    returns: no canvas, no drawing call, no saved file, whatever the
    configuration and the policy; [main] then goes on to the next stream. *)
Theorem empty_mapping_skipped (cfg : Config)
    (entities : list (string * gmap string string)) (out title : string)
    (group : bool) :
  generate_badges_pdf_at cfg entities [] out title group
  = ([Print (NoParticipants out)], Ok tt)
  ∧ ∀ entities_file participants_file pe de all dp,
      load_entities entities_file = Ok entities →
      load_participants participants_file = Ok all →
      classify_entities entities [] [] = (pe, de) →
      split_participants entities all [] [] = ([], dp) →
      main_at cfg entities_file participants_file
      = (print LoadingData;;
         print (Found (length pe) (length de));;
         print GeneratingPDFs;;
         print (NoParticipants private_delegates_pdf);;
         generate_badges_pdf_at cfg entities dp
           delegations_pdf "Delegations PDF" false;;
         print AllGenerated).
Proof.
  split; [reflexivity|].
  intros entities_file participants_file pe de all dp H1 H2 H3 H4.
  now rewrite (main_at_loaded cfg _ _ _ _ _ _ _ _ H1 H2 H3 H4).
Qed.

Lemma empty_mapping_skipped_witness :
  ∃ c title entities participants,
    main sample_entities_file sample_participants_file
    = ([Print LoadingData; Print (Found 1 2); Print GeneratingPDFs;
        Print (NoParticipants "badges_private_delegates.pdf");
        SavePDF "badges_delegations.pdf" c;
        Print (Summary title "badges_delegations.pdf" entities participants);
        Print AllGenerated], Ok tt).
Proof.
  destruct (empty_mapping_skipped default_config
              (drawn_entities sample_entities_file) "" "" true) as [_ H].
  eexists _, _, _, _.
  unfold main.
  rewrite (H sample_entities_file sample_participants_file
             (classify_entities (drawn_entities sample_entities_file) [] []).1
             (classify_entities (drawn_entities sample_entities_file) [] []).2
             (drawn_participants sample_participants_file)
             (drawn_participants sample_participants_file)
             eq_refl eq_refl eq_refl eq_refl).
  reflexivity.
Defined.

(** On rows whose cells are all strings: a row without the key [entity_id] makes either loader raise
    [KeyError] and [main] stop before anything is generated or saved; when
    every row has the key the loaders succeed whatever other columns are
    absent, every loaded value is the stripped field of a row, an absent field
    counts as the empty string, and stripped strings have no whitespace at
    either end. *)
Theorem loader_key_and_defaults (cfg : Config)
    (entities_file participants_file : list (gmap string string)) :
  ((∃ row, row ∈ entities_file ∧ row !! "entity_id" = None) →
     load_entities entities_file = Raise (KeyError "entity_id")
     ∧ main_at cfg entities_file participants_file
       = ([Print LoadingData], Raise (KeyError "entity_id")))
  ∧ ((∃ row, row ∈ participants_file ∧ row !! "entity_id" = None) →
     load_participants participants_file = Raise (KeyError "entity_id")
     ∧ main_at cfg entities_file participants_file
       = ([Print LoadingData], Raise (KeyError "entity_id")))
  ∧ ((∀ row, row ∈ entities_file → is_Some (row !! "entity_id")) →
     ∃ entities, load_entities entities_file = Ok entities
       ∧ ∀ eid info, od_get eid entities = Some info →
           ∃ row, row ∈ entities_file ∧ row_key row eid ∧ info = entity_of_row row)
  ∧ ((∀ row, row ∈ participants_file → is_Some (row !! "entity_id")) →
     ∃ participants, load_participants participants_file = Ok participants
       ∧ ∀ eid ps p, od_get eid participants = Some ps → p ∈ ps →
           ∃ row, row ∈ participants_file ∧ row_key row eid
                  ∧ p = participant_of_row row)
  ∧ (∀ (row : gmap string string) key,
       row !! key = None → strip (dict_get row key "") = "")
  ∧ (∀ s, trimmed (strip s)).
Proof.
  split; [|split; [|split; [|split; [|split]]]].
  - intros Hmiss.
    pose proof (load_entities_from_missing entities_file [] Hmiss) as H.
    split; [exact H|]. now apply main_at_entities_raise.
  - intros Hmiss.
    pose proof (load_participants_from_missing participants_file [] Hmiss) as H.
    split; [exact H|].
    destruct (load_entities entities_file) as [entities|e] eqn:E.
    + now apply (main_at_participants_raise cfg _ _ entities).
    + rewrite (main_at_entities_raise cfg _ _ e E).
      now rewrite (load_entities_from_raise _ _ _ E).
  - intros Hkeys.
    destruct (load_entities_from_ok entities_file [] Hkeys) as [entities Hload].
    exists entities. split; [exact Hload|]. intros eid info Hinfo.
    apply load_entities_from_inv in Hload as (_ & _ & Hget).
    destruct (Hget eid info Hinfo) as [H|H]; [discriminate | exact H].
  - intros Hkeys.
    destruct (load_participants_from_ok participants_file [] Hkeys) as [ps Hload].
    exists ps. split; [exact Hload|]. intros eid ps' p Hps Hp.
    apply load_participants_from_inv in Hload as (_ & Hget).
    destruct (Hget eid ps' p Hps Hp) as [(ps0 & H & _)|H]; [discriminate | exact H].
  - apply dict_get_absent.
  - apply strip_trimmed.
Qed.

Lemma loader_key_and_defaults_witness :
  (load_participants sample_keyless_file = Raise (KeyError "entity_id")
   ∧ main sample_entities_file sample_keyless_file
     = ([Print LoadingData], Raise (KeyError "entity_id")))
  ∧ ∃ entities, load_entities sample_entities_file = Ok entities
      ∧ od_get "E3" entities = Some (make_entity_info "" "")
      ∧ od_get "E2" entities
        = Some (make_entity_info "PRIVATE Delegate (solo)" "Beta School").
Proof.
  pose proof (loader_key_and_defaults default_config sample_entities_file
                sample_keyless_file) as (_ & Hp & He & _).
  split.
  - apply Hp. exists {[ "name" := "Dee" ]}. split; [|reflexivity].
    apply list_elem_of_further, list_elem_of_here.
  - destruct He as (entities & Hload & _).
    + intros row Hin. repeat (apply elem_of_cons in Hin as [->|Hin]; [now eexists|]).
      now apply elem_of_nil in Hin.
    + exists entities. split; [exact Hload|].
      injection Hload as <-. split; reflexivity.
Defined.

(** ** Unknown entities *)

Lemma generate_badges_pdf_total (entities : list (string * gmap string string))
    (pbe : list (string * list Participant)) (out title : string) (group : bool) :
  ∃ evs, generate_badges_pdf entities pbe out title group = (evs, Ok tt).
Proof.
  destruct pbe as [|item pbe]; [eexists; reflexivity|].
  destruct group; eexists;
    (apply (generate_saves default_config (drawn_geometry default_config));
       [discriminate | reflexivity |]).
  - now apply render_grouped_plan.
  - now apply render_per_entity_plan.
Qed.

Lemma unknown_entity_footer (cfg : Config)
    (entities : list (string * gmap string string)) (eid : string) :
  od_get eid entities = None →
  entity_footer cfg entities eid
  = [SetFont "Helvetica-Bold" 10;
     DrawCentredString (page_width cfg / 2) (margin cfg + 5 * mm) eid;
     SetFont "Helvetica" 9;
     DrawCentredString (page_width cfg / 2) (margin cfg) "Unknown Delegation"]%Q.
Proof. intros H. unfold entity_footer. rewrite H. reflexivity. Qed.

Lemma unknown_entity_routed (entities : list (string * gmap string string))
    (eid : string) :
  od_get eid entities = None → routed_private entities eid = false.
Proof. intros H. unfold routed_private. rewrite H. reflexivity. Qed.

Lemma per_entity_plan_app (bpp : Z) (l1 l2 : list (string * list Participant)) :
  per_entity_plan bpp (l1 ++ l2) = per_entity_plan bpp l1 ++ per_entity_plan bpp l2.
Proof. unfold per_entity_plan. apply flat_map_app. Qed.

Lemma per_entity_plan_cons (bpp : Z) (eid : string) (ps : list Participant)
    (l : list (string * list Participant)) :
  per_entity_plan bpp ((eid, ps) :: l)
  = map (pair eid) (fill bpp ps []) ++ per_entity_plan bpp l.
Proof. reflexivity. Qed.

(** Every entity of the mapping has its footer on the canvas. *)
Lemma per_entity_footer_drawn (cfg : Config) (g : Geometry)
    (entities : list (string * gmap string string))
    (pbe : list (string * list Participant)) (eid : string) (ps : list Participant) :
  (eid, ps) ∈ pbe →
  ∃ before after,
    flat_map (fun page => page_ops cfg g (entity_footer cfg entities page.1) page.2)
      (per_entity_plan (badges_per_page g) pbe)
    = before ++ entity_footer cfg entities eid ++ after.
Proof.
  intros Hin. apply list_elem_of_split in Hin as (l1 & l2 & ->).
  rewrite per_entity_plan_app, per_entity_plan_cons.
  destruct (fill_cons (badges_per_page g) ps []) as (page & pages & ->).
  set (F := fun page : string * list Participant =>
              page_ops cfg g (entity_footer cfg entities page.1) page.2).
  exists (flat_map F (per_entity_plan (badges_per_page g) l1)),
         (page_badges cfg g page ++ [ShowPage]
          ++ flat_map F (map (pair eid) pages ++ per_entity_plan (badges_per_page g) l2)).
  rewrite flat_map_app. f_equal.
  change (map (pair eid) (page :: pages)) with ((eid, page) :: map (pair eid) pages).
  change (((eid, page) :: map (pair eid) pages) ++ per_entity_plan (badges_per_page g) l2)
    with ((eid, page) :: (map (pair eid) pages ++ per_entity_plan (badges_per_page g) l2)).
  change (flat_map F ((eid, page) :: ?l)) with (F (eid, page) ++ flat_map F l).
  unfold F at 1, page_ops. cbn [fst snd].
  rewrite <- !app_assoc. reflexivity.
Qed.

(** C10: an entity that has participants but is absent from the entities
    dictionary is put by [main] into the delegation participants, not the
    private-delegate ones; the delegations file, generated entity by entity,
    carries its footer with the entity's identifier and the name
    "Unknown Delegation". *)
Theorem unknown_entity_dispatch
    (entities_file participants_file : list (gmap string string))
    (entities : list (string * gmap string string))
    (all : list (string * list Participant)) (eid : string) (ps : list Participant) :
  load_entities entities_file = Ok entities →
  load_participants participants_file = Ok all →
  od_get eid all = Some ps → od_get eid entities = None →
  ∃ pp dp c before after evs,
    split_participants entities all [] [] = (pp, dp)
    ∧ od_get eid pp = None ∧ od_get eid dp = Some ps
    ∧ generate_badges_pdf entities dp delegations_pdf "Delegations PDF" false
      = ([SavePDF delegations_pdf c;
          Print (Summary "Delegations PDF" delegations_pdf (length dp)
                   (total_participants dp))], Ok tt)
    ∧ c = before
          ++ [SetFont "Helvetica-Bold" 10;
              DrawCentredString (page_width default_config / 2)
                (margin default_config + 5 * mm) eid;
              SetFont "Helvetica" 9;
              DrawCentredString (page_width default_config / 2)
                (margin default_config) "Unknown Delegation"]%Q
          ++ after
    ∧ main entities_file participants_file = (evs, Ok tt)
    ∧ SavePDF delegations_pdf c ∈ evs.
Proof.
  intros He Hp Hps Hunk.
  pose proof (load_participants_wf _ _ Hp) as Hwf.
  pose proof (split_participants_filter entities all Hwf) as Hsplit.
  set (pp := List.filter (fun item => routed_private entities item.1) all) in *.
  set (dp := List.filter (fun item => negb (routed_private entities item.1)) all) in *.
  assert (Hpp : od_get eid pp = None).
  { unfold pp. rewrite (od_get_filter _ all eid ps Hwf Hps). cbn [fst].
    now rewrite unknown_entity_routed. }
  assert (Hdp : od_get eid dp = Some ps).
  { unfold dp. rewrite (od_get_filter _ all eid ps Hwf Hps). cbn [fst].
    now rewrite unknown_entity_routed. }
  set (g := drawn_geometry default_config).
  destruct (per_entity_footer_drawn default_config g entities dp eid ps)
    as (before & after & Hc); [now apply od_get_Some_elem|].
  rewrite (unknown_entity_footer _ _ _ Hunk) in Hc.
  assert (Hgen : generate_badges_pdf entities dp delegations_pdf "Delegations PDF" false
                 = ([SavePDF delegations_pdf
                       (flat_map (fun page => page_ops default_config g
                                    (entity_footer default_config entities page.1) page.2)
                          (per_entity_plan (badges_per_page g) dp));
                     Print (Summary "Delegations PDF" delegations_pdf (length dp)
                              (total_participants dp))], Ok tt)).
  { apply (generate_saves default_config g); [|reflexivity|].
    - intros E. rewrite E in Hdp. discriminate.
    - now apply render_per_entity_plan. }
  destruct (generate_badges_pdf_total entities pp private_delegates_pdf
              "Private Delegates PDF" true) as [evs1 Hgen1].
  destruct (classify_entities entities [] []) as [pe de] eqn:Hclass.
  eexists pp, dp, _, before, after, _.
  split; [exact Hsplit|]. split; [exact Hpp|]. split; [exact Hdp|].
  split; [exact Hgen|]. split; [exact Hc|]. split.
  - unfold main. rewrite (main_at_loaded _ _ _ _ _ _ _ _ _ He Hp Hclass Hsplit).
    fold generate_badges_pdf. rewrite Hgen1, Hgen. cbn. reflexivity.
  - rewrite !elem_of_cons, elem_of_app, !elem_of_cons. auto 10.
Qed.

Lemma unknown_entity_dispatch_witness :
  ∃ c before after evs,
    c = before
        ++ [SetFont "Helvetica-Bold" 10;
            DrawCentredString (page_width default_config / 2)
              (margin default_config + 5 * mm) "E9";
            SetFont "Helvetica" 9;
            DrawCentredString (page_width default_config / 2)
              (margin default_config) "Unknown Delegation"]%Q
        ++ after
    ∧ main sample_entities_file sample_participants_file = (evs, Ok tt)
    ∧ SavePDF delegations_pdf c ∈ evs.
Proof.
  destruct (unknown_entity_dispatch sample_entities_file sample_participants_file
              (drawn_entities sample_entities_file)
              (drawn_participants sample_participants_file)
              "E9" [{| participant_id := ""; name := "Cyd" |}]
              eq_refl eq_refl eq_refl eq_refl)
    as (pp & dp & c & before & after & evs & _ & _ & _ & _ & Hc & Hmain & Hin).
  exists c, before, after, evs. auto.
Defined.

(** * Further properties of the program *)

(** ** What the loaders keep *)

Lemma row_eid_item (row : gmap string string) (e : string) :
  row !! "entity_id" = Some e → row_eid row = Some (strip e).
Proof. intros H. unfold row_eid. now rewrite H. Qed.

Lemma total_participants_set (k : string) (p : Participant)
    (acc : list (string * list Participant)) :
  total_participants (od_set k (default [] (od_get k acc) ++ [p]) acc)
  = S (total_participants acc).
Proof.
  unfold total_participants. induction acc as [|[k' ps] acc IH]; [reflexivity|].
  cbn [od_set od_get]. destruct (decide (k = k')) as [->|Hne].
  - cbn. rewrite length_app. cbn. lia.
  - cbn [map sum_list snd]. rewrite IH. lia.
Qed.

Lemma od_set_Forall {V : Type} (P : string * V → Prop) (k : string) (v : V)
    (d : list (string * V)) :
  (∀ k', P (k', v)) → Forall P d → Forall P (od_set k v d).
Proof.
  intros Hv. induction 1 as [|[k' v'] d Hx Hd IH]; cbn.
  - repeat constructor. apply Hv.
  - destruct (decide (k = k')); constructor; auto.
Qed.

Lemma load_participants_from_groups (rows : list (gmap string string))
    (acc all : list (string * list Participant)) :
  load_participants_from rows acc = Ok all →
  od_keys all = od_keys acc ++ first_seen (od_keys acc) (omap row_eid rows)
  ∧ (∀ eid, default [] (od_get eid all)
            = default [] (od_get eid acc)
              ++ map participant_of_row (List.filter (row_has_eid eid) rows))
  ∧ total_participants all = (total_participants acc + length rows)%nat
  ∧ (Forall (fun item => item.2 ≠ []) acc → Forall (fun item => item.2 ≠ []) all).
Proof.
  revert acc. induction rows as [|r rows IH]; intros acc Hload.
  - cbn in Hload. injection Hload as <-. cbn.
    rewrite app_nil_r. repeat split; auto. intros eid. now rewrite app_nil_r.
  - cbn [load_participants_from] in Hload. unfold dict_item in Hload.
    destruct (r !! "entity_id") as [e|] eqn:E; [|discriminate]. cbn in Hload.
    apply IH in Hload as (Hkeys & Hget & Htotal & Hne).
    pose proof (row_eid_item r e E) as Hr.
    split; [|split; [|split]].
    + rewrite Hkeys, od_keys_set. cbn [omap list_omap]. rewrite Hr. cbn [first_seen].
      destruct (decide (strip e ∈ od_keys acc)); [reflexivity|].
      now rewrite <- app_assoc.
    + intros eid. rewrite Hget. cbn [List.filter]. unfold row_has_eid at 2.
      rewrite Hr. destruct (decide (strip e = eid)) as [<-|Hneq].
      * rewrite od_get_set_eq, bool_decide_true by reflexivity.
        cbn [default from_option id map]. now rewrite <- app_assoc.
      * rewrite od_get_set_ne by assumption.
        rewrite bool_decide_false by congruence. reflexivity.
    + rewrite Htotal, total_participants_set. cbn [length]. lia.
    + intros Hacc. apply Hne, od_set_Forall; [|assumption].
      intros k'. cbn. now destruct (default [] (od_get (strip e) acc)).
Qed.

(** X1: the participants dictionary lists the entity identifiers in order of
    first appearance in the file, and under each identifier the participants
    of exactly the rows carrying it, in file order, duplicates included. *)
Theorem load_participants_groups (rows : list (gmap string string))
    (all : list (string * list Participant)) :
  load_participants rows = Ok all →
  od_keys all = first_seen [] (omap row_eid rows)
  ∧ ∀ eid, default [] (od_get eid all)
           = map participant_of_row (List.filter (row_has_eid eid) rows).
Proof.
  intros H. apply load_participants_from_groups in H as (Hkeys & Hget & _).
  split; [exact Hkeys | exact Hget].
Qed.

Lemma load_participants_groups_witness :
  od_keys (drawn_participants sample_participants_file) = ["E1"; "E9"]
  ∧ od_get "E1" (drawn_participants sample_participants_file)
    = Some [{| participant_id := "P1"; name := "Ada" |};
            {| participant_id := "P2"; name := "Bob" |}].
Proof.
  destruct (load_participants_groups sample_participants_file
              (drawn_participants sample_participants_file) eq_refl) as [Hk _].
  split; [exact Hk | reflexivity].
Defined.

(** X2: loading loses and invents nothing: the dictionary holds as many
    participants as the file has rows, and no entity in it is without
    participants. *)
Theorem load_participants_count (rows : list (gmap string string))
    (all : list (string * list Participant)) :
  load_participants rows = Ok all →
  total_participants all = length rows
  ∧ Forall (fun item => item.2 ≠ []) all.
Proof.
  intros H. apply load_participants_from_groups in H as (_ & _ & Htotal & Hne).
  split; [exact Htotal | apply Hne; constructor].
Qed.

Lemma load_participants_count_witness :
  total_participants (drawn_participants sample_participants_file) = 3%nat
  ∧ Forall (fun item => item.2 ≠ []) (drawn_participants sample_participants_file).
Proof.
  exact (load_participants_count sample_participants_file
           (drawn_participants sample_participants_file) eq_refl).
Defined.

Lemma load_entities_from_last (rows : list (gmap string string))
    (acc entities : list (string * gmap string string)) :
  load_entities_from rows acc = Ok entities →
  od_keys entities = od_keys acc ++ first_seen (od_keys acc) (omap row_eid rows)
  ∧ ∀ eid, od_get eid entities
           = match last (List.filter (row_has_eid eid) rows) with
             | Some row => Some (entity_of_row row)
             | None => od_get eid acc
             end.
Proof.
  revert acc. induction rows as [|r rows IH]; intros acc Hload.
  - cbn in Hload. injection Hload as <-. cbn. now rewrite app_nil_r.
  - cbn [load_entities_from] in Hload. unfold dict_item in Hload.
    destruct (r !! "entity_id") as [e|] eqn:E; [|discriminate]. cbn in Hload.
    apply IH in Hload as (Hkeys & Hget).
    pose proof (row_eid_item r e E) as Hr. split.
    + rewrite Hkeys, od_keys_set. cbn [omap list_omap]. rewrite Hr. cbn [first_seen].
      destruct (decide (strip e ∈ od_keys acc)); [reflexivity|].
      now rewrite <- app_assoc.
    + intros eid. rewrite Hget. cbn [List.filter]. unfold row_has_eid at 2.
      rewrite Hr. destruct (decide (strip e = eid)) as [<-|Hneq].
      * rewrite bool_decide_true by reflexivity.
        destruct (List.filter (row_has_eid (strip e)) rows) as [|r' l] eqn:Ef.
        -- cbn [last]. rewrite od_get_set_eq. reflexivity.
        -- cbv iota. rewrite last_cons_cons.
           destruct (last (r' :: l)) eqn:El; [reflexivity|].
           now apply last_None in El.
      * rewrite bool_decide_false by congruence.
        now rewrite od_get_set_ne by assumption.
Qed.

(** X3: in the entities dictionary an identifier keeps the place of its first
    row and carries the data of its last row: later rows with the same
    identifier overwrite earlier ones. *)
Theorem load_entities_last_wins (rows : list (gmap string string))
    (entities : list (string * gmap string string)) :
  load_entities rows = Ok entities →
  od_keys entities = first_seen [] (omap row_eid rows)
  ∧ ∀ eid, od_get eid entities
           = entity_of_row <$> last (List.filter (row_has_eid eid) rows).
Proof.
  intros H. apply load_entities_from_last in H as (Hkeys & Hget).
  split; [exact Hkeys|]. intros eid. rewrite Hget.
  now destruct (last (List.filter (row_has_eid eid) rows)).
Qed.

Lemma load_entities_last_wins_witness :
  od_keys (drawn_entities sample_repeated_entities_file) = ["E1"; "E2"]
  ∧ od_get "E1" (drawn_entities sample_repeated_entities_file)
    = Some (make_entity_info "Private Delegate" "").
Proof.
  destruct (load_entities_last_wins sample_repeated_entities_file
              (drawn_entities sample_repeated_entities_file) eq_refl) as [Hk Hg].
  split; [exact Hk | exact (Hg "E1")].
Defined.

(** ** Names shown in the footer *)







(** ** The two streams *)

Lemma total_participants_filter (test : string * list Participant → bool)
    (all : list (string * list Participant)) :
  (total_participants (List.filter test all)
   + total_participants (List.filter (fun item => negb (test item)) all))%nat
  = total_participants all.
Proof.
  unfold total_participants. induction all as [|item all IH]; [reflexivity|].
  cbn [List.filter]. destruct (test item); cbn [negb map sum_list]; lia.
Qed.

(** X5: [main] sends every participant group whole to exactly one stream, in
    the dictionary's order, and to the private-delegate stream exactly when
    the group's entity was classified as a private delegate on lines 276-281;
    the two streams together hold as many participants as were loaded. *)
Theorem streams_partition (entities pe de : list (string * gmap string string))
    (all pp dp : list (string * list Participant)) :
  od_wf entities → od_wf all →
  classify_entities entities [] [] = (pe, de) →
  split_participants entities all [] [] = (pp, dp) →
  (total_participants pp + total_participants dp)%nat = total_participants all
  ∧ pp = List.filter (fun item => bool_decide (item.1 ∈ od_keys pe)) all
  ∧ dp = List.filter (fun item => negb (bool_decide (item.1 ∈ od_keys pe))) all
  ∧ ∀ eid ps, od_get eid all = Some ps →
      (eid ∈ od_keys pe ∧ od_get eid pp = Some ps ∧ od_get eid dp = None)
      ∨ ((eid ∉ od_keys pe) ∧ od_get eid pp = None ∧ od_get eid dp = Some ps).
Proof.
  intros Hwe Hwa Hclass Hsplit.
  rewrite (classify_entities_filter entities Hwe) in Hclass. injection Hclass as <- <-.
  rewrite (split_participants_filter entities all Hwa) in Hsplit.
  injection Hsplit as <- <-.
  assert (Hroute : ∀ eid, routed_private entities eid
                          = bool_decide (eid ∈ od_keys
                              (List.filter (fun item => is_private_delegate item.2)
                                 entities))).
  { intros eid. unfold routed_private.
    destruct (od_get eid entities) as [info|] eqn:E; cbn [default from_option id].
    - destruct (is_private_delegate info) eqn:Ep.
      + symmetry. apply bool_decide_eq_true. apply od_keys_filter; [assumption|].
        exists info. now split.
      + symmetry. apply bool_decide_eq_false. intros Hin.
        apply od_keys_filter in Hin as (info' & E' & Ep'); [|assumption].
        cbn [snd] in Ep'. congruence.
    - symmetry. apply bool_decide_eq_false. intros Hin.
      apply od_keys_filter in Hin as (info' & E' & _); [|assumption]. congruence. }
  assert (Hext : ∀ (f h : string * list Participant → bool) l,
             (∀ x, f x = h x) → List.filter f l = List.filter h l).
  { intros f h l Hfh. induction l as [|x l IH]; [reflexivity|].
    cbn. now rewrite Hfh, IH. }
  split; [apply total_participants_filter|].
  split; [apply Hext; intros item; apply Hroute|].
  split; [apply Hext; intros item; now rewrite Hroute|].
  intros eid ps Hps.
  rewrite !(od_get_filter _ all eid ps Hwa Hps). cbn [fst]. rewrite Hroute.
  destruct (decide (eid ∈ od_keys (List.filter (fun item => is_private_delegate item.2)
                                     entities))) as [Hin|Hnin].
  - left. rewrite bool_decide_true by assumption. auto.
  - right. rewrite bool_decide_false by assumption. auto.
Qed.

Lemma streams_partition_witness :
  ∃ pp dp,
    split_participants (drawn_entities sample_repeated_entities_file)
      (drawn_participants sample_participants_file) [] [] = (pp, dp)
    ∧ od_keys pp = ["E1"] ∧ od_keys dp = ["E9"]
    ∧ (total_participants pp + total_participants dp)%nat = 3%nat.
Proof.
  destruct (streams_partition (drawn_entities sample_repeated_entities_file)
              (classify_entities (drawn_entities sample_repeated_entities_file) [] []).1
              (classify_entities (drawn_entities sample_repeated_entities_file) [] []).2
              (drawn_participants sample_participants_file)
              (split_participants (drawn_entities sample_repeated_entities_file)
                 (drawn_participants sample_participants_file) [] []).1
              (split_participants (drawn_entities sample_repeated_entities_file)
                 (drawn_participants sample_participants_file) [] []).2)
    as (Htotal & _);
    [ now apply (load_entities_wf sample_repeated_entities_file)
    | now apply (load_participants_wf sample_participants_file)
    | reflexivity | reflexivity |].
  eexists _, _. split; [reflexivity|]. split; [reflexivity|].
  split; [reflexivity | exact Htotal].
Defined.

(** ** Badges in input order *)

Lemma qr_payloads_app (c1 c2 : list op) :
  qr_payloads (c1 ++ c2) = qr_payloads c1 ++ qr_payloads c2.
Proof.
  induction c1 as [|o c1 IH]; [reflexivity|].
  destruct o; cbn; now rewrite IH.
Qed.

Lemma labels_drawn_badge (cfg : Config) (g : Geometry) (p : Participant) (i : Z)
    (rest : list op) (b : bool) :
  cols g ≠ 0 →
  labels_drawn (drawn (draw_badge cfg g p i) ++ rest) b
  = name_label (name p) :: labels_drawn rest true.
Proof.
  intros Hc. unfold draw_badge.
  destruct (badge_anchor_ok cfg g i Hc) as [a ->]. cbn.
  destruct (nonempty (participant_id p)); reflexivity.
Qed.

Lemma qr_payloads_badge (cfg : Config) (g : Geometry) (p : Participant) (i : Z) :
  cols g ≠ 0 →
  qr_payloads (drawn (draw_badge cfg g p i))
  = if nonempty (participant_id p) then [participant_id p] else [].
Proof.
  intros Hc. unfold draw_badge.
  destruct (badge_anchor_ok cfg g i Hc) as [a ->]. cbn.
  destruct (nonempty (participant_id p)); reflexivity.
Qed.

Lemma labels_drawn_page_badges (cfg : Config) (g : Geometry)
    (page : list Participant) (rest : list op) (b : bool) :
  cols g ≠ 0 →
  labels_drawn (page_badges cfg g page ++ ShowPage :: rest) b
  = map (fun p => name_label (name p)) page ++ labels_drawn rest false.
Proof.
  intros Hc.
  assert (H : ∀ tail b, labels_drawn (page_badges cfg g page ++ tail) b
                = map (fun p => name_label (name p)) page
                  ++ labels_drawn tail (match page with [] => b | _ => true end)).
  { induction page as [|p page IH] using rev_ind; intros tail b'; [reflexivity|].
    rewrite page_badges_snoc, <- app_assoc, IH, labels_drawn_badge by assumption.
    rewrite map_app, <- app_assoc. cbn [map app].
    now destruct page. }
  rewrite H. cbn. now destruct page.
Qed.

Lemma qr_payloads_page_badges (cfg : Config) (g : Geometry) (page : list Participant) :
  cols g ≠ 0 →
  qr_payloads (page_badges cfg g page)
  = List.filter nonempty (map participant_id page).
Proof.
  intros Hc. induction page as [|p page IH] using rev_ind; [reflexivity|].
  rewrite page_badges_snoc, qr_payloads_app, IH, qr_payloads_badge by assumption.
  rewrite map_app, List.filter_app. cbn.
  now destruct (nonempty (participant_id p)).
Qed.

Lemma title_footer_quiet (cfg : Config) : quiet (title_footer cfg).
Proof. split; reflexivity. Qed.

Lemma entity_footer_quiet (cfg : Config) (entities : list (string * gmap string string))
    (eid : string) :
  quiet (entity_footer cfg entities eid).
Proof. split; reflexivity. Qed.

Lemma qr_payloads_page_ops (cfg : Config) (g : Geometry) (footer : list op)
    (page : list Participant) :
  cols g ≠ 0 → quiet footer →
  qr_payloads (page_ops cfg g footer page)
  = List.filter nonempty (map participant_id page).
Proof.
  intros Hc [_ Hp]. unfold page_ops.
  rewrite !qr_payloads_app, Hp, qr_payloads_page_badges by assumption.
  cbn [qr_payloads app]. apply app_nil_r.
Qed.

Lemma labels_drawn_page_ops (cfg : Config) (g : Geometry) (footer : list op)
    (page : list Participant) (rest : list op) (b : bool) :
  cols g ≠ 0 → quiet footer →
  labels_drawn (page_ops cfg g footer page ++ rest) b
  = map (fun p => name_label (name p)) page ++ labels_drawn rest false.
Proof.
  intros Hc [Hl _]. unfold page_ops.
  rewrite <- !app_assoc, Hl. cbn [app].
  now apply labels_drawn_page_badges.
Qed.

Lemma canvas_shows_plan (cfg : Config) (g : Geometry)
    (plan : list (list op * list Participant)) (b : bool) :
  cols g ≠ 0 → (∀ page, page ∈ plan → quiet page.1) →
  labels_drawn (flat_map (fun page => page_ops cfg g page.1 page.2) plan) b
  = map (fun p => name_label (name p)) (concat (map snd plan))
  ∧ qr_payloads (flat_map (fun page => page_ops cfg g page.1 page.2) plan)
    = List.filter nonempty (map participant_id (concat (map snd plan))).
Proof.
  intros Hc. revert b.
  induction plan as [|page plan IH]; intros b Hq; [split; reflexivity|].
  cbn [flat_map map concat].
  destruct (IH false) as [IHl IHq];
    [intros x Hx; apply Hq; now apply list_elem_of_further|].
  assert (Hpage : quiet page.1) by apply Hq, list_elem_of_here.
  split.
  - rewrite labels_drawn_page_ops by assumption. now rewrite IHl, map_app.
  - rewrite qr_payloads_app, qr_payloads_page_ops, IHq by assumption.
    now rewrite map_app, List.filter_app.
Qed.

Lemma per_entity_plan_concat (bpp : Z) (pbe : list (string * list Participant)) :
  concat (map snd (per_entity_plan bpp pbe)) = all_participants pbe.
Proof.
  unfold per_entity_plan, all_participants.
  induction pbe as [|[eid ps] pbe IH]; [reflexivity|].
  cbn [flat_map fst snd fmap list_fmap concat].
  rewrite map_app, concat_app, IH, map_map. cbn [snd].
  rewrite map_id. now rewrite fill_concat.
Qed.

(** The canvas either policy saves, page by page. *)
Lemma generate_plan (cfg : Config) (g : Geometry)
    (entities : list (string * gmap string string))
    (pbe : list (string * list Participant)) (out title : string) (group : bool) :
  computeGeometry cfg = Ok g → cols g ≠ 0 → pbe ≠ [] →
  ∃ plan : list (list op * list Participant),
    generate_badges_pdf_at cfg entities pbe out title group
    = ([SavePDF out (flat_map (fun page => page_ops cfg g page.1 page.2) plan);
        Print (Summary title out (length pbe) (total_participants pbe))], Ok tt)
    ∧ (∀ page, page ∈ plan → quiet page.1 ∧ plain page.1)
    ∧ concat (map snd plan) = all_participants pbe
    ∧ map snd plan
      = (if group then fill (badges_per_page g) (all_participants pbe) []
         else map snd (per_entity_plan (badges_per_page g) pbe)).
Proof.
  intros Hg Hc Hne. destruct group.
  - exists (map (pair (title_footer cfg))
              (fill (badges_per_page g) (all_participants pbe) [])).
    split; [|split; [|split]].
    + apply (generate_saves cfg g); [assumption..|].
      rewrite render_grouped_plan by assumption. now rewrite flat_map_over_map.
    + intros page Hin. apply list_elem_of_fmap in Hin as (pg & -> & _).
      split; [apply title_footer_quiet | apply title_footer_plain].
    + rewrite map_map. cbn [snd]. rewrite map_id. apply fill_concat.
    + rewrite map_map. cbn [snd]. apply map_id.
  - exists (map (fun page => (entity_footer cfg entities page.1, page.2))
              (per_entity_plan (badges_per_page g) pbe)).
    split; [|split; [|split]].
    + apply (generate_saves cfg g); [assumption..|].
      rewrite render_per_entity_plan by assumption. now rewrite flat_map_over_map.
    + intros page Hin. apply list_elem_of_fmap in Hin as (pg & -> & _).
      split; [apply entity_footer_quiet | apply entity_footer_plain].
    + rewrite map_map. cbn [snd]. apply per_entity_plan_concat.
    + rewrite map_map. reflexivity.
Qed.

(** X6: under either policy the saved canvas shows every participant exactly
    once and in the order of the mapping: the labels drawn are the
    participants' truncated names in that order, and the QR payloads are the
    non-empty participant identifiers in that order (a participant without
    identifier gets a label but no QR image). *)
Theorem badges_in_input_order (cfg : Config) (g : Geometry)
    (entities : list (string * gmap string string))
    (pbe : list (string * list Participant)) (out title : string) (group : bool) :
  computeGeometry cfg = Ok g → cols g ≠ 0 → pbe ≠ [] →
  ∃ c, generate_badges_pdf_at cfg entities pbe out title group
       = ([SavePDF out c;
           Print (Summary title out (length pbe) (total_participants pbe))], Ok tt)
    ∧ labels_drawn c false
      = map (fun p => name_label (name p)) (all_participants pbe)
    ∧ qr_payloads c
      = List.filter nonempty (map participant_id (all_participants pbe)).
Proof.
  intros Hg Hc Hne.
  destruct (generate_plan cfg g entities pbe out title group Hg Hc Hne)
    as (plan & Hrun & Hfooters & Hall & _).
  eexists. split; [exact Hrun|].
  rewrite <- Hall. apply canvas_shows_plan; [assumption|].
  intros page Hin. now apply Hfooters.
Qed.

Lemma badges_in_input_order_witness :
  ∃ c, generate_badges_pdf [] sample_participants "out.pdf" "Badges" false
       = ([SavePDF "out.pdf" c; Print (Summary "Badges" "out.pdf" 2 3)], Ok tt)
    ∧ labels_drawn c false = ["Ada"; "Bob"; "Cyd"]
    ∧ qr_payloads c = ["P1"; "P2"].
Proof.
  exact (badges_in_input_order default_config (drawn_geometry default_config) []
           sample_participants "out.pdf" "Badges" false eq_refl
           ltac:(discriminate) ltac:(discriminate)).
Defined.

(** ** How many pages *)

Lemma fill_length (bpp : Z) (ps cur : list Participant) :
  0 < bpp → Z.of_nat (length cur) ≤ bpp →
  let t := Z.of_nat (length cur + length ps) in
  Z.of_nat (length (fill bpp ps cur)) = if t =? 0 then 1 else (t + bpp - 1) / bpp.
Proof.
  intros Hb. revert cur; induction ps as [|p ps IH]; intros cur Hcur t.
  - cbn [fill length]. subst t. rewrite Nat.add_0_r.
    destruct (Z.eqb_spec (Z.of_nat (length cur)) 0) as [|Hpos]; [reflexivity|].
    change (Z.of_nat 1) with 1.
    apply (Z.div_unique _ _ 1 (Z.of_nat (length cur) - 1)); lia.
  - cbn [fill]. destruct (Z.leb_spec bpp (Z.of_nat (length cur))) as [Hfull|Hroom].
    + cbn [length]. rewrite Nat2Z.inj_succ, (IH [p]) by (cbn; lia).
      subst t. cbn [length].
      destruct (Z.eqb_spec (Z.of_nat (1 + length ps)) 0); [lia|].
      destruct (Z.eqb_spec (Z.of_nat (length cur + S (length ps))) 0); [lia|].
      replace (Z.of_nat (length cur + S (length ps)) + bpp - 1)
        with (Z.of_nat (1 + length ps) + bpp - 1 + 1 * bpp) by lia.
      rewrite Z.div_add by lia. lia.
    + rewrite (IH (cur ++ [p])) by (rewrite length_app; cbn; lia).
      subst t. rewrite length_app. cbn [length].
      now replace (length cur + 1 + length ps)%nat
        with (length cur + S (length ps))%nat by lia.
Qed.

Lemma fill_pages_needed (bpp : Z) (ps : list Participant) :
  0 < bpp →
  Z.of_nat (length (fill bpp ps [])) = pages_needed bpp (Z.of_nat (length ps)).
Proof.
  intros Hb. rewrite fill_length by (cbn; lia). cbn [length Nat.add].
  unfold pages_needed.
  destruct (Z.eqb_spec (Z.of_nat (length ps)) 0) as [->|Hpos].
  - rewrite Z.div_small by lia. reflexivity.
  - assert (1 ≤ (Z.of_nat (length ps) + bpp - 1) / bpp).
    { apply Z.div_le_lower_bound; lia. }
    lia.
Qed.

Lemma per_entity_plan_length (bpp : Z) (pbe : list (string * list Participant)) :
  0 < bpp →
  Z.of_nat (length (per_entity_plan bpp pbe)) = pages_per_entity bpp pbe.
Proof.
  intros Hb. unfold per_entity_plan, pages_per_entity.
  induction pbe as [|[eid ps] pbe IH]; [reflexivity|].
  cbn [flat_map foldr fst snd].
  rewrite length_app, length_map, Nat2Z.inj_add, IH, fill_pages_needed by assumption.
  reflexivity.
Qed.

Lemma sum_list_lengths {A : Type} (ls : list (list A)) :
  sum_list (map length ls) = length (concat ls).
Proof.
  induction ls as [|l ls IH]; [reflexivity|].
  cbn. now rewrite length_app, IH.
Qed.

Lemma plan_ends_with_break {A : Type} (cfg : Config) (g : Geometry)
    (footer : A → list op) (badges : A → list Participant) (pages : list A) :
  pages ≠ [] →
  last (flat_map (fun a => page_ops cfg g (footer a) (badges a)) pages)
  = Some ShowPage.
Proof.
  destruct pages as [|a pages] using rev_ind; [contradiction|]. intros _.
  rewrite flat_map_app. cbn [flat_map]. rewrite app_nil_r.
  unfold page_ops at 2. rewrite !app_assoc. apply last_snoc.
Qed.

(** X7: with room for at least one badge per page, the grouped policy saves
    [max 1 (ceil (total / badges_per_page))] pages, and the per-entity policy
    saves the sum of that number over the entities, each entity by itself. *)
Theorem page_count (cfg : Config) (g : Geometry)
    (entities : list (string * gmap string string))
    (pbe : list (string * list Participant)) (out title : string) (group : bool) :
  computeGeometry cfg = Ok g → 0 < badges_per_page g → pbe ≠ [] →
  ∃ c, generate_badges_pdf_at cfg entities pbe out title group
       = ([SavePDF out c;
           Print (Summary title out (length pbe) (total_participants pbe))], Ok tt)
    ∧ Z.of_nat (length (badges_on_pages c 0))
      = if group
        then pages_needed (badges_per_page g)
               (Z.of_nat (length (all_participants pbe)))
        else pages_per_entity (badges_per_page g) pbe.
Proof.
  intros Hg Hb Hne.
  assert (Hc : cols g ≠ 0).
  { pose proof (computeGeometry_bpp cfg g Hg) as Hbpp. intros E.
    rewrite Hbpp, E, Z.mul_0_l in Hb. now apply Z.lt_irrefl in Hb. }
  destruct group; eexists; (split; [apply (generate_saves cfg g); [assumption..|]|]).
  - now apply render_grouped_plan.
  - rewrite (badges_on_pages_plan cfg g (fun _ => title_footer cfg) id);
      [|assumption | intros _; apply title_footer_plain].
    rewrite length_map. now apply fill_pages_needed.
  - now apply render_per_entity_plan.
  - rewrite (badges_on_pages_plan cfg g
               (fun page => entity_footer cfg entities page.1) snd);
      [|assumption | intros page; apply entity_footer_plain].
    rewrite length_map. now apply per_entity_plan_length.
Qed.

Lemma page_count_witness :
  ∃ c, generate_badges_pdf [] sample_participants "out.pdf" "Badges" false
       = ([SavePDF "out.pdf" c; Print (Summary "Badges" "out.pdf" 2 3)], Ok tt)
    ∧ Z.of_nat (length (badges_on_pages c 0)) = 2.
Proof.
  exact (page_count default_config (drawn_geometry default_config) []
           sample_participants "out.pdf" "Badges" false eq_refl eq_refl
           ltac:(discriminate)).
Defined.

(** X8: whenever a file is saved, its canvas ends with a page break, so the
    last page is closed, and the badges on its finished pages are as many as
    the mapping has participants: none is drawn after the last page break and
    none is missing. *)
Theorem canvas_closed (cfg : Config) (g : Geometry)
    (entities : list (string * gmap string string))
    (pbe : list (string * list Participant)) (out title : string) (group : bool) :
  computeGeometry cfg = Ok g → cols g ≠ 0 → pbe ≠ [] →
  ∃ c, generate_badges_pdf_at cfg entities pbe out title group
       = ([SavePDF out c;
           Print (Summary title out (length pbe) (total_participants pbe))], Ok tt)
    ∧ last c = Some ShowPage
    ∧ sum_list (badges_on_pages c 0) = length (all_participants pbe).
Proof.
  intros Hg Hc Hne.
  destruct group; eexists; (split; [apply (generate_saves cfg g); [assumption..|]|]).
  - now apply render_grouped_plan.
  - split.
    + apply (plan_ends_with_break cfg g (fun _ => title_footer cfg) id).
      destruct (fill_cons (badges_per_page g) (all_participants pbe) [])
        as (pg & pgs & ->). discriminate.
    + rewrite (badges_on_pages_plan cfg g (fun _ => title_footer cfg) id);
        [|assumption | intros _; apply title_footer_plain].
      change (map (fun a => length (id a))) with (map (@length Participant)).
      now rewrite sum_list_lengths, fill_concat.
  - now apply render_per_entity_plan.
  - split.
    + apply (plan_ends_with_break cfg g
               (fun page => entity_footer cfg entities page.1) snd).
      destruct pbe as [|[eid ps] pbe]; [contradiction|].
      rewrite per_entity_plan_cons.
      destruct (fill_cons (badges_per_page g) ps []) as (pg & pgs & ->). discriminate.
    + rewrite (badges_on_pages_plan cfg g
                 (fun page => entity_footer cfg entities page.1) snd);
        [|assumption | intros page; apply entity_footer_plain].
      rewrite <- (map_map snd length), sum_list_lengths.
      now rewrite per_entity_plan_concat.
Qed.

Lemma canvas_closed_witness :
  ∃ c, generate_badges_pdf_at tall_badge_config [] sample_participants
         "out.pdf" "Badges" true
       = ([SavePDF "out.pdf" c; Print (Summary "Badges" "out.pdf" 2 3)], Ok tt)
    ∧ last c = Some ShowPage
    ∧ sum_list (badges_on_pages c 0) = 3%nat.
Proof.
  exact (canvas_closed tall_badge_config (drawn_geometry tall_badge_config) []
           sample_participants "out.pdf" "Badges" true eq_refl
           ltac:(discriminate) ltac:(discriminate)).
Defined.

(** ** Badges stay on the page and apart *)

Section BadgePlacement.
Local Open Scope Q_scope.

Lemma slot_inside (m u w s K C : Q) :
  0 <= s → 0 < w → 0 <= K → K <= C - 1 → C * w + (C + 1) * s <= u →
  m <= m + s + K * (w + s) ∧ m + s + K * (w + s) + w <= m + u.
Proof.
  intros Hs Hw HK HKC Hfit.
  assert (H1 : 0 <= K * (w + s)) by (apply Qmult_le_0_compat; lra).
  assert (H2 : 0 <= (C - 1 - K) * (w + s)) by (apply Qmult_le_0_compat; lra).
  split; lra.
Qed.

Lemma slots_apart (m w s K1 K2 : Q) :
  0 <= s → 0 < w → K1 + 1 <= K2 →
  m + s + K1 * (w + s) + w <= m + s + K2 * (w + s).
Proof.
  intros Hs Hw HK.
  assert (H : 0 <= (K2 - K1 - 1) * (w + s)) by (apply Qmult_le_0_compat; lra).
  lra.
Qed.

(** The spacing is never negative, and the badges with the spacing between
    and around them fit the usable length. *)
Lemma spacing_fits (u w : Q) (c : Z) :
  0 < w → c = Qfloor (u / w) →
  let s := if (1 <? c)%Z then (u - inject_Z c * w) / inject_Z (c + 1) else 0 in
  0 <= s ∧ inject_Z c * w + (inject_Z c + 1) * s <= u.
Proof.
  intros Hw -> s. destruct (floor_fits u w Hw) as [Hfloor _].
  set (c := Qfloor (u / w)) in *. subst s.
  destruct (Z.ltb_spec 1 c) as [Hc|Hc].
  - assert (Hpos : 0 < inject_Z (c + 1)).
    { change 0 with (inject_Z 0). rewrite <- Zlt_Qlt. lia. }
    assert (Hc1 : inject_Z (c + 1) == inject_Z c + 1).
    { rewrite inject_Z_plus. reflexivity. }
    split.
    + apply Qle_shift_div_l; [assumption|]. lra.
    + rewrite <- Hc1. rewrite Qmult_div_r; [lra|]. lra.
  - split; lra.
Qed.

Lemma inject_Z_succ_le (a b : Z) : (a < b)%Z → inject_Z a + 1 <= inject_Z b.
Proof.
  intros H. change 1 with (inject_Z 1). rewrite <- inject_Z_plus, <- Zle_Qle. lia.
Qed.

Lemma inject_Z_nonneg (a : Z) : (0 ≤ a)%Z → 0 <= inject_Z a.
Proof. intros H. change 0 with (inject_Z 0). now rewrite <- Zle_Qle. Qed.

Lemma geometry_spacing (cfg : Config) (g : Geometry) :
  computeGeometry cfg = Ok g → 0 < badge_width cfg → 0 < badge_height cfg →
  (0 <= h_spacing g
   ∧ inject_Z (cols g) * badge_width cfg + (inject_Z (cols g) + 1) * h_spacing g
     <= page_width cfg - 2 * margin cfg)
  ∧ (0 <= v_spacing g
     ∧ inject_Z (rows g) * badge_height cfg + (inject_Z (rows g) + 1) * v_spacing g
       <= page_height cfg - 2 * margin cfg - footer_height cfg).
Proof.
  intros Hg Hw Hh.
  rewrite computeGeometry_ok in Hg by lra. injection Hg as <-.
  cbn [cols rows h_spacing v_spacing].
  split; now apply spacing_fits.
Qed.

(** X9: in a geometry computed for positive badge sizes and at least one
    column, every badge of a page lies inside the page margins: its left and
    right edges between the two side margins, its top edge below the top
    margin and the footer band, its bottom edge above the bottom margin. *)
Theorem badge_within_margins (cfg : Config) (g : Geometry) (i : Z) :
  computeGeometry cfg = Ok g → 0 < badge_width cfg → 0 < badge_height cfg →
  (0 < cols g)%Z → (0 ≤ i < badges_per_page g)%Z →
  ∃ a, badge_anchor cfg g i = Ok a
    ∧ margin cfg <= a_x a
    ∧ a_x a + badge_width cfg <= page_width cfg - margin cfg
    ∧ margin cfg + footer_height cfg <= a_y_from_top a
    ∧ a_y_from_top a + badge_height cfg <= page_height cfg - margin cfg
    ∧ margin cfg <= a_y a.
Proof.
  intros Hg Hw Hh Hc [Hi0 Hi].
  destruct (geometry_spacing cfg g Hg Hw Hh) as [[Hhs Hhfit] [Hvs Hvfit]].
  rewrite (computeGeometry_bpp cfg g Hg) in Hi.
  assert (Hcol : (0 ≤ i mod cols g < cols g)%Z) by now apply Z.mod_pos_bound.
  assert (Hrow0 : (0 ≤ i / cols g)%Z) by now apply Z.div_pos.
  assert (Hrow : (i / cols g < rows g)%Z) by now apply Z.div_lt_upper_bound.
  unfold badge_anchor, py_imod, py_idiv.
  destruct (Z.eqb_spec (cols g) 0) as [E|_]; [lia|].
  eexists. split; [reflexivity|].
  cbn [a_x a_y a_y_from_top].
  destruct (slot_inside (margin cfg) (page_width cfg - 2 * margin cfg)
              (badge_width cfg) (h_spacing g)
              (inject_Z (i mod cols g)) (inject_Z (cols g))) as [Hx1 Hx2];
    [assumption | assumption | now apply inject_Z_nonneg | | assumption |].
  { pose proof (inject_Z_succ_le (i mod cols g) (cols g) (proj2 Hcol)). lra. }
  destruct (slot_inside (margin cfg + footer_height cfg)
              (page_height cfg - 2 * margin cfg - footer_height cfg)
              (badge_height cfg) (v_spacing g)
              (inject_Z (i / cols g)) (inject_Z (rows g))) as [Hy1 Hy2];
    [assumption | assumption | now apply inject_Z_nonneg | | assumption |].
  { pose proof (inject_Z_succ_le (i / cols g) (rows g) Hrow). lra. }
  repeat split; lra.
Qed.

Lemma badge_within_margins_witness :
  ∃ a, badge_anchor default_config (drawn_geometry default_config) 19 = Ok a
    ∧ a_x a + badge_width default_config
      <= page_width default_config - margin default_config
    ∧ margin default_config <= a_y a.
Proof.
  destruct (badge_within_margins default_config (drawn_geometry default_config) 19)
    as (a & Ha & _ & Hx & _ & _ & Hy);
    [reflexivity | reflexivity | reflexivity | reflexivity | split; [lia | reflexivity] |].
  exists a. auto.
Defined.

(** X10: under the same conditions two different badges of one page never
    overlap: one lies wholly to the side of the other, or wholly above it. *)
Theorem badges_apart (cfg : Config) (g : Geometry) (i j : Z) :
  computeGeometry cfg = Ok g → 0 < badge_width cfg → 0 < badge_height cfg →
  (0 < cols g)%Z → i ≠ j →
  ∃ a b, badge_anchor cfg g i = Ok a ∧ badge_anchor cfg g j = Ok b
    ∧ (a_x a + badge_width cfg <= a_x b
       ∨ a_x b + badge_width cfg <= a_x a
       ∨ a_y_from_top a + badge_height cfg <= a_y_from_top b
       ∨ a_y_from_top b + badge_height cfg <= a_y_from_top a).
Proof.
  intros Hg Hw Hh Hc Hij.
  destruct (geometry_spacing cfg g Hg Hw Hh) as [[Hhs _] [Hvs _]].
  unfold badge_anchor, py_imod, py_idiv.
  destruct (Z.eqb_spec (cols g) 0) as [E|Hne]; [lia|].
  eexists _, _. split; [reflexivity|]. split; [reflexivity|].
  cbn [a_x a_y_from_top].
  destruct (Z.lt_total (i mod cols g) (j mod cols g)) as [Hlt|[Heq|Hgt]].
  - left. apply slots_apart; [assumption..|]. now apply inject_Z_succ_le.
  - destruct (Z.lt_total (i / cols g) (j / cols g)) as [Hlt|[Heq'|Hgt]].
    + right; right; left. apply slots_apart; [assumption..|].
      now apply inject_Z_succ_le.
    + exfalso. apply Hij.
      rewrite (Z.div_mod i (cols g)), (Z.div_mod j (cols g)) by assumption.
      now rewrite Heq, Heq'.
    + right; right; right. apply slots_apart; [assumption..|].
      now apply inject_Z_succ_le.
  - right; left. apply slots_apart; [assumption..|]. now apply inject_Z_succ_le.
Qed.

Lemma badges_apart_witness :
  ∃ a b, badge_anchor default_config (drawn_geometry default_config) 3 = Ok a
    ∧ badge_anchor default_config (drawn_geometry default_config) 4 = Ok b
    ∧ a_y_from_top a + badge_height default_config <= a_y_from_top b.
Proof.
  destruct (badges_apart default_config (drawn_geometry default_config) 3 4)
    as (a & b & Ha & Hb & _);
    [reflexivity | reflexivity | reflexivity | reflexivity | lia |].
  exists a, b. split; [exact Ha|]. split; [exact Hb|].
  injection Ha as <-. injection Hb as <-. now vm_compute.
Defined.

End BadgePlacement.

(** ** The routing test *)

Lemma prefix_split (sub s : string) :
  String.prefix sub s = true ↔ ∃ post, s = sub +:+ post.
Proof.
  revert s. induction sub as [|a sub IH]; intros s.
  - split; [intros _; now exists s | intros _; now destruct s].
  - destruct s as [|b s]; cbn; [split; [discriminate | intros [post [=]]]|].
    destruct (ascii_dec a b) as [->|Hne].
    + rewrite IH. split; intros [post H]; exists post.
      * cbn. now rewrite H.
      * cbn in H. now injection H.
    + split; [discriminate|]. intros [post H]. cbn in H.
      injection H as Hab _. now symmetry in Hab.
Qed.

Lemma contains_split (sub s : string) :
  contains sub s = true ↔ ∃ pre post, s = pre +:+ sub +:+ post.
Proof.
  induction s as [|c s IH].
  - cbn [contains]. destruct (String.prefix sub "") eqn:E.
    + split; [intros _|reflexivity]. apply prefix_split in E as [post E].
      now exists "", post.
    + split; [discriminate|]. intros (pre & post & H).
      destruct pre; [|discriminate]. cbn in H.
      assert (String.prefix sub "" = true) by (apply prefix_split; now exists post).
      congruence.
  - cbn [contains]. destruct (String.prefix sub (String c s)) eqn:E.
    + split; [intros _|reflexivity]. apply prefix_split in E as [post E].
      now exists "", post.
    + rewrite IH. split.
      * intros (pre & post & ->). now exists (String c pre), post.
      * intros (pre & post & H). destruct pre as [|c' pre].
        -- cbn in H.
           assert (String.prefix sub (String c s) = true)
             by (apply prefix_split; now exists post).
           congruence.
        -- cbn in H. injection H as _ ->. now exists pre, post.
Qed.

(** X13: the routing test of [main] is a substring test on the lower-cased
    type: an entity counts as a private delegate exactly when its type, in
    lower case, reads as some text, then "private delegate", then some text. *)
Theorem private_delegate_rule (entity_info : gmap string string) :
  is_private_delegate entity_info = true
  ↔ ∃ pre post,
      lower (dict_get entity_info "entity_type" "")
      = pre +:+ "private delegate" +:+ post.
Proof. unfold is_private_delegate. apply contains_split. Qed.

(** ** Whose data a file depends on *)

Lemma render_per_entity_ext (cfg : Config) (g : Geometry)
    (entities entities' : list (string * gmap string string))
    (pbe : list (string * list Participant)) :
  (∀ eid, eid ∈ od_keys pbe → od_get eid entities = od_get eid entities') →
  render_per_entity cfg g entities pbe = render_per_entity cfg g entities' pbe.
Proof.
  unfold od_keys. induction pbe as [|[eid ps] pbe IH]; intros H; [reflexivity|].
  cbn [render_per_entity]. unfold entity_footer.
  rewrite (H eid) by apply list_elem_of_here.
  rewrite IH; [reflexivity|].
  intros eid' Hin. apply H. now apply list_elem_of_further.
Qed.

(** X14: a generated file depends on the entities dictionary only through the
    entries of the entities that have participants in the mapping, and under
    the grouped policy not at all: entities without participants leave no
    trace on any page. *)
Theorem entities_without_participants (cfg : Config)
    (entities entities' : list (string * gmap string string))
    (pbe : list (string * list Participant)) (out title : string) (group : bool) :
  (group = false →
   ∀ eid, eid ∈ od_keys pbe → od_get eid entities = od_get eid entities') →
  generate_badges_pdf_at cfg entities pbe out title group
  = generate_badges_pdf_at cfg entities' pbe out title group.
Proof.
  intros H. unfold generate_badges_pdf_at.
  destruct pbe as [|item pbe]; [reflexivity|].
  destruct (computeGeometry cfg) as [g|e]; [|reflexivity].
  cbn [lift mbind run_bind]. destruct group; [reflexivity|].
  now rewrite (render_per_entity_ext cfg g entities entities' (item :: pbe) (H eq_refl)).
Qed.

Lemma entities_without_participants_witness :
  generate_badges_pdf (drawn_entities sample_entities_file)
    [("E1", [ada; bob])] "out.pdf" "Badges" false
  = generate_badges_pdf [("E1", make_entity_info "Junior Delegation" "Alpha")]
      [("E1", [ada; bob])] "out.pdf" "Badges" false.
Proof.
  apply entities_without_participants. intros _ eid Hin.
  apply list_elem_of_singleton in Hin as ->. reflexivity.
Defined.

(** ** Division by zero *)



(** ** Grouping and labels *)

(** X17: under the grouped policy only the sequence of participants counts:
    two mappings listing the same participants in the same order, however
    divided among entities, give the same canvas. *)
Theorem grouped_ignores_entities (cfg : Config) (g : Geometry)
    (pbe pbe' : list (string * list Participant)) :
  all_participants pbe = all_participants pbe' →
  render_grouped cfg g pbe = render_grouped cfg g pbe'.
Proof.
  intros H. unfold render_grouped. now rewrite !grouped_loop_flat, H.
Qed.

Lemma grouped_ignores_entities_witness :
  render_grouped default_config (drawn_geometry default_config) sample_participants
  = render_grouped default_config (drawn_geometry default_config)
      [("E0", []); ("E1", [ada]); ("E7", [bob; cyd])].
Proof. apply grouped_ignores_entities. reflexivity. Defined.

Lemma name_label_bound (participant_name : string) :
  (String.length (name_label participant_name) ≤ 25)%nat.
Proof.
  unfold name_label, max_name_length.
  destruct (Nat.ltb_spec 25 (String.length participant_name)) as [Hlt|Hle]; [|exact Hle].
  change (25 - 3)%nat with 22%nat.
  rewrite length_append, str_take_length. simpl String.length. lia.
Qed.

(** X18: no label on a saved canvas is longer than 25 characters, whatever
    the names in the mapping. *)
Theorem labels_bounded (cfg : Config) (g : Geometry)
    (entities : list (string * gmap string string))
    (pbe : list (string * list Participant)) (out title : string) (group : bool) :
  computeGeometry cfg = Ok g → cols g ≠ 0 → pbe ≠ [] →
  ∃ c, generate_badges_pdf_at cfg entities pbe out title group
       = ([SavePDF out c;
           Print (Summary title out (length pbe) (total_participants pbe))], Ok tt)
    ∧ Forall (fun text => (String.length text ≤ 25)%nat) (labels_drawn c false).
Proof.
  intros Hg Hc Hne.
  destruct (generate_plan cfg g entities pbe out title group Hg Hc Hne)
    as (plan & Hrun & Hfooters & _).
  eexists. split; [exact Hrun|].
  destruct (canvas_shows_plan cfg g plan false Hc) as [-> _].
  { intros page Hin. now apply Hfooters. }
  apply Forall_forall. intros text Hin.
  apply list_elem_of_In, in_map_iff in Hin as (p & <- & _). apply name_label_bound.
Qed.

Lemma labels_bounded_witness :
  ∃ c, generate_badges_pdf [] [("E1", [{| participant_id := "P7";
                                          name := "Maximiliana Konstantinopolous" |}])]
         "out.pdf" "Badges" true
       = ([SavePDF "out.pdf" c; Print (Summary "Badges" "out.pdf" 1 1)], Ok tt)
    ∧ Forall (fun text => (String.length text ≤ 25)%nat) (labels_drawn c false).
Proof.
  exact (labels_bounded default_config (drawn_geometry default_config) []
           [("E1", [{| participant_id := "P7";
                       name := "Maximiliana Konstantinopolous" |}])]
           "out.pdf" "Badges" true eq_refl ltac:(discriminate) ltac:(discriminate)).
Defined.

(** ** Rows shorter than the header *)

Lemma cell_item_string (row : gmap string string) (key : string) :
  cell_item (Some <$> row) key = (v ← dict_item row key; mret (strip v)).
Proof.
  unfold cell_item, dict_item. rewrite lookup_fmap.
  now destruct (row !! key).
Qed.

Lemma cell_get_string (row : gmap string string) (key : string) :
  cell_get (Some <$> row) key = Ok (strip (dict_get row key "")).
Proof.
  unfold cell_get, dict_get. rewrite lookup_fmap.
  now destruct (row !! key).
Qed.

(** On rows whose cells are all strings the loader is [load_entities]. *)
Lemma load_entities_csv_strings (rows : list (gmap string string))
    (acc : list (string * gmap string string)) :
  load_entities_csv_from (map (fun row : gmap string string => Some <$> row) rows) acc
  = load_entities_from rows acc.
Proof.
  revert acc. induction rows as [|row rows IH]; intros acc; [reflexivity|].
  cbn [map load_entities_csv_from load_entities_from].
  rewrite cell_item_string, !cell_get_string.
  destruct (dict_item row "entity_id") as [e|x]; [|reflexivity].
  cbn. apply IH.
Qed.

Lemma load_participants_csv_strings (rows : list (gmap string string))
    (acc : list (string * list Participant)) :
  load_participants_csv_from
    (map (fun row : gmap string string => Some <$> row) rows) acc
  = load_participants_from rows acc.
Proof.
  revert acc. induction rows as [|row rows IH]; intros acc; [reflexivity|].
  cbn [map load_participants_csv_from load_participants_from].
  rewrite cell_item_string, !cell_get_string.
  destruct (dict_item row "entity_id") as [e|x]; [|reflexivity].
  cbn. apply IH.
Qed.

(** A first row that has its key but lacks a later cell stops the loader. *)
Lemma short_entity_row_raises (row : gmap string (option string))
    (rest : list (gmap string (option string)))
    (acc : list (string * gmap string string)) (e : string) :
  row !! "entity_id" = Some (Some e) →
  row !! "entity_type" = Some None ∨ row !! "team_name" = Some None
  ∨ row !! "institution_name" = Some None →
  load_entities_csv_from (row :: rest) acc = Raise AttributeError.
Proof.
  intros He Hcell. cbn [load_entities_csv_from]. unfold cell_item, cell_get.
  rewrite He. cbn.
  destruct (row !! "entity_type") as [[t|]|]; cbn; try reflexivity;
    (destruct (row !! "team_name") as [[n|]|]; cbn; try reflexivity;
     (destruct (row !! "institution_name") as [[i|]|]; cbn; try reflexivity;
      destruct Hcell as [H|[H|H]]; discriminate)).
Qed.

Lemma short_participant_row_raises (row : gmap string (option string))
    (rest : list (gmap string (option string)))
    (acc : list (string * list Participant)) (e : string) :
  row !! "entity_id" = Some (Some e) →
  row !! "participant_id" = Some None ∨ row !! "name" = Some None →
  load_participants_csv_from (row :: rest) acc = Raise AttributeError.
Proof.
  intros He Hcell. cbn [load_participants_csv_from]. unfold cell_item, cell_get.
  rewrite He. cbn.
  destruct (row !! "participant_id") as [[t|]|]; cbn; try reflexivity;
    (destruct (row !! "name") as [[n|]|]; cbn; try reflexivity;
     destruct Hcell as [H|H]; discriminate).
Qed.

(** C9: a row shorter than the header does not get its missing fields
    defaulted: [row.get(key, '')] finds the key with [None] under it and
    [.strip()] raises [AttributeError], in either loader, and a short row that
    does not reach the key column raises [AttributeError] too, not [KeyError].
    Only a column the header lacks is defaulted to the empty string, and only
    a header without [entity_id] gives [KeyError]. *)
Theorem short_row_raises :
  load_entities_csv [short_entity_row] = Raise AttributeError
  ∧ load_participants_csv [short_participant_row] = Raise AttributeError
  ∧ load_entities_csv [short_keyless_row] = Raise AttributeError
  ∧ load_participants_csv [short_keyless_row] = Raise AttributeError
  ∧ load_entities_csv [{[ "team_name" := Some "Alpha" ]}]
    = Raise (KeyError "entity_id")
  ∧ load_entities_csv [{[ "entity_id" := Some " E1 " ]}]
    = Ok [("E1", make_entity_info "" "")]
  ∧ load_participants_csv [{[ "entity_id" := Some " E1 " ]}]
    = Ok [("E1", [{| participant_id := ""; name := "" |}])].
Proof.
  split; [now apply (short_entity_row_raises _ _ _ "E1"); [|left]|].
  split; [now apply (short_participant_row_raises _ _ _ "E1"); [|right]|].
  repeat split; reflexivity.
Qed.

(** At the program's own sizes the bottom row of a full page reaches into the
    footer band: its lower edge is 12 mm above the bottom of the page, below
    the 25 mm that margin and band take up, and the footer's line with the
    entity identifier, 15 mm up, falls inside the label strip of that row. *)
Lemma bottom_row_in_footer_band :
  ∃ g a, computeGeometry default_config = Ok g
    ∧ badge_anchor default_config g 16 = Ok a
    ∧ a_col a = 0 ∧ a_row a = 4
    ∧ (a_y a == 12 * mm)%Q
    ∧ (a_y a < margin default_config + footer_height default_config)%Q
    ∧ (a_y a <= margin default_config + 5 * mm)%Q
    ∧ (margin default_config + 5 * mm <= a_y a + text_space default_config)%Q.
Proof.
  eexists _, _. split; [reflexivity|]. split; [reflexivity|]. now vm_compute.
Qed.
